(** * firefly-gaf: a shallow embedding of [script.py]

    The script talks to a Firefly III ledger over REST.  It scans the
    withdrawals of one account for notes of the form
    [Original account name: <name>], collects the distinct names in a set
    and creates one rewriting rule per name.

    Conventions of the embedding.
    - A Python value that came out of [r.json()] is a [value].
    - A Python [str] is a [string]; each character is a code point below 256.
    - A raised exception is the [Raise] branch of [result]; the recursion of
      the generators and of the loops is bounded by a fuel argument and
      [NoFuel] is the answer of a run that was cut short.
    - The ledger is a function from the requests sent so far and the request
      at hand to a reply, so that every deterministic server is covered.
    - What the interpreter and the libraries decide is a [runtime]: how
      deep generators may nest, and which link texts [urljoin] rejects.
    - Library calls ([re.search], [str.strip], [pydantic], [requests]) are
      embedded by what they do on the values this script hands to them. *)

From Stdlib Require Import String Ascii List ZArith NArith Lia Bool Permutation.
Import ListNotations.
Open Scope string_scope.
Open Scope list_scope.
Set Warnings "-register-all".

(** ** Strings *)

Definition LF : ascii := ascii_of_nat 10.
Definition DQUOTE : ascii := ascii_of_nat 34.

Definition str1 (c : ascii) : string := String c EmptyString.

(** [sep.join(parts)] *)
Fixpoint join (sep : string) (parts : list string) : string :=
  match parts with
  | [] => EmptyString
  | [p] => p
  | p :: rest => (p ++ sep ++ join sep rest)%string
  end.

(** [str.isspace] on one character, for code points below 256: the
    characters [str.strip()] removes. *)
Definition isspace (c : ascii) : bool :=
  let n := N_of_ascii c in
  ((9 <=? n) && (n <=? 13) || (28 <=? n) && (n <=? 32)
   || (n =? 133) || (n =? 160))%N.

Fixpoint lstrip (s : string) : string :=
  match s with
  | EmptyString => EmptyString
  | String c s' => if isspace c then lstrip s' else s
  end.

Fixpoint rstrip (s : string) : string :=
  match s with
  | EmptyString => EmptyString
  | String c s' =>
      match rstrip s' with
      | EmptyString => if isspace c then EmptyString else str1 c
      | r => String c r
      end
  end.

(** [s.strip()] *)
Definition strip (s : string) : string := rstrip (lstrip s).

(** ** The marker regex *)

Definition marker : string := "Original account name: ".

(** What is left of [s] once the literal [p] has been read at its start. *)
Fixpoint match_literal (p s : string) : option string :=
  match p, s with
  | EmptyString, _ => Some s
  | String a p', String b s' =>
      if Ascii.eqb a b then match_literal p' s' else None
  | String _ _, EmptyString => None
  end.

(** The greedy class "any character but a line feed, repeated": the
    longest run without a line feed. *)
Fixpoint match_not_newline (s : string) : string :=
  match s with
  | EmptyString => EmptyString
  | String c s' =>
      if Ascii.eqb c LF then EmptyString else String c (match_not_newline s')
  end.

(** The pattern (the marker, then group 1 around the greedy class)
    anchored at the start of [s]; the answer is the text of group 1. *)
Definition match_here (s : string) : option string :=
  option_map match_not_newline (match_literal marker s).

(** [re.search(pattern, s)] followed by [.group(1)]: the leftmost position
    where the pattern matches. *)
Fixpoint re_search (s : string) : option string :=
  match match_here s with
  | Some cap => Some cap
  | None =>
      match s with
      | EmptyString => None
      | String _ s' => re_search s'
      end
  end.

(** ** Values, exceptions, results *)

Inductive value : Type :=
| VNone
| VBool (b : bool)
| VInt (z : Z)
| VFloat (bits : Z)
| VStr (s : string)
| VList (l : list value)
| VDict (kvs : list (string * value)).

Inductive exn : Type :=
| ValueError (msg : string)
| RuntimeError (msg : string)
| ValidationError
| KeyError (key : string)
| TypeError
| HTTPError (status : Z)
| RequestException
| RecursionError.

Inductive result (A : Type) : Type :=
| Ok (a : A)
| Raise (e : exn)
| NoFuel.
Arguments Ok {A} a.
Arguments Raise {A} e.
Arguments NoFuel {A}.

Definition bind {A B : Type} (m : result A) (k : A -> result B) : result B :=
  match m with
  | Ok a => k a
  | Raise e => Raise e
  | NoFuel => NoFuel
  end.

Notation "x <- m ;; k" := (bind m (fun x => k))
  (at level 100, m at next level, right associativity).

(** [d.get(key)] on the items of a dict. *)
Fixpoint lookup (key : string) (kvs : list (string * value)) : option value :=
  match kvs with
  | [] => None
  | (k, v) :: rest => if String.eqb key k then Some v else lookup key rest
  end.

(** [v[key]] with a [str] key. *)
Definition subscript (v : value) (key : string) : result value :=
  match v with
  | VDict kvs =>
      match lookup key kvs with
      | Some x => Ok x
      | None => Raise (KeyError key)
      end
  | _ => Raise TypeError
  end.

(** [iter(v)], run to its end: what [yield from v] goes through. *)
Definition py_iter (v : value) : result (list value) :=
  match v with
  | VList l => Ok l
  | VDict kvs => Ok (map (fun kv => VStr (fst kv)) kvs)
  | VStr s => Ok (map (fun c => VStr (str1 c)) (list_ascii_of_string s))
  | _ => Raise TypeError
  end.

(** ** HTTP *)

Inductive method : Type := GET | POST.

Record request : Type := mkRequest {
  rq_method : method;
  rq_url : string;
  rq_authorization : string;
  rq_params : list (string * string);
  rq_json : option value
}.

(** What [r.json()] does: it returns the parsed body, it raises
    [JSONDecodeError], or it raises something else (a [RecursionError] on
    a deeply nested body, a [ValueError] on an integer of too many digits,
    ...). *)
Inductive json_outcome : Type :=
| Parsed (data : value)
| JSONDecodeError
| JsonRaises (e : exn).

Record response : Type := mkResponse {
  status_code : Z;
  text : string;
  json_result : json_outcome
}.

(** The parsed body of a response, when there is one. *)
Definition r_json (r : response) : option value :=
  match json_result r with
  | Parsed data => Some data
  | _ => None
  end.

Inductive reply : Type :=
| Reply (r : response)
| Failure.

Definition is_post (q : request) : bool :=
  match rq_method q with POST => true | GET => false end.

Definition is_get (q : request) : bool :=
  match rq_method q with GET => true | POST => false end.

(** [r.raise_for_status()]: an [HTTPError] for a 4xx or 5xx status. *)
Definition raise_for_status (r : response) : result unit :=
  if ((400 <=? status_code r) && (status_code r <? 600))%Z
  then Raise (HTTPError (status_code r))
  else Ok tt.

(** ** Expected shapes

    The script asks for [dict] and, through the paginated decoder, for
    [list[T]]. *)
Inductive shape : Type :=
| TDict
| TList (item : shape).

Fixpoint map_result {A B : Type} (f : A -> result B) (l : list A)
  : result (list B) :=
  match l with
  | [] => Ok []
  | x :: rest => y <- f x ;; ys <- map_result f rest ;; Ok (y :: ys)
  end.

(** [pydantic.TypeAdapter(T).validate_python(v)] *)
Fixpoint validate_python (T : shape) (v : value) : result value :=
  match T, v with
  | TDict, VDict kvs => Ok (VDict kvs)
  | TList item, VList l =>
      l' <- map_result (validate_python item) l ;; Ok (VList l')
  | _, _ => Raise ValidationError
  end.

(** The wording of the specification: [v] has the shape [T]. *)
Fixpoint conforms (T : shape) (v : value) : Prop :=
  match T, v with
  | TDict, VDict _ => True
  | TList item, VList l => Forall (conforms item) l
  | _, _ => False
  end.

(** ** Pattern matching on the decoded body *)

(** [case {"message": str() as message, "exception": str() as exception}] *)
Definition match_error (data : value) : option (string * string) :=
  match data with
  | VDict kvs =>
      match lookup "message" kvs, lookup "exception" kvs with
      | Some (VStr message), Some (VStr exception) => Some (message, exception)
      | _, _ => None
      end
  | _ => None
  end.

(** [case {"data": object() as actual_data}] *)
Definition match_data (data : value) : option value :=
  match data with
  | VDict kvs => lookup "data" kvs
  | _ => None
  end.

(** [case {"links": {"next": str() as next}}] *)
Definition match_next (data : value) : option string :=
  match data with
  | VDict kvs =>
      match lookup "links" kvs with
      | Some (VDict links) =>
          match lookup "next" links with
          | Some (VStr next) => Some next
          | _ => None
          end
      | _ => None
      end
  | _ => None
  end.

(** ** Logging *)

Definition DEBUG : Z := 10.
Definition INFO : Z := 20.
Definition WARNING : Z := 30.
Definition ERROR : Z := 40.

Record log_record : Type := mkRecord {
  levelno : Z;
  msg : string;
  args : list value
}.

(** ** The state of a run: the requests sent, the level of the root
    logger and the records it has emitted. *)
Record state : Type := mkState {
  reqs : list request;
  log_level : Z;
  logs : list log_record
}.

Definition init : state := mkState [] WARNING [].

Definition M (A : Type) : Type := state -> result A * state.

Definition ret {A : Type} (a : A) : M A := fun st => (Ok a, st).

Definition lift {A : Type} (r : result A) : M A := fun st => (r, st).

Definition bindM {A B : Type} (m : M A) (k : A -> M B) : M B :=
  fun st =>
    match m st with
    | (Ok a, st') => k a st'
    | (Raise e, st') => (Raise e, st')
    | (NoFuel, st') => (NoFuel, st')
    end.

Notation "x <<- m ;; k" := (bindM m (fun x => k))
  (at level 100, m at next level, right associativity).

(** [LOGGER.log(level, msg, *args)]: the record is emitted when the level
    reaches the effective level of the root logger. *)
Definition LOGGER_log (level : Z) (fmt : string) (a : list value) : M unit :=
  fun st =>
    (Ok tt,
     if (log_level st <=? level)%Z
     then mkState (reqs st) (log_level st) (logs st ++ [mkRecord level fmt a])
     else st).

Definition setup_logging (verbosity : Z) : M unit :=
  fun st =>
    let level :=
      match verbosity with
      | 0%Z => ERROR
      | 1%Z => WARNING
      | 2%Z => INFO
      | 3%Z => DEBUG
      | _ => 0%Z
      end in
    (Ok tt, mkState (reqs st) level (logs st)).

(** ** The program *)

Record FireflySession : Type := mkSession {
  base_url : string;
  api_token : string
}.

(** The state of the generator [process_paginated_api_response]: not yet
    started on a response, inside the items of a page whose body is [data],
    or finished.  The recursive [yield from] hands over to the generator of
    the following page, which runs one frame deeper: [depth] is the number
    of nested generators, one per page gone through. *)
Inductive pag_gen : Type :=
| PagStart (depth : nat) (r : response)
| PagItems (depth : nat) (data : value) (items : list value)
| PagDone.

(** What the script does not fix about where it runs.
    - [depth_limit]: how many generators of the paginated decoder the
      interpreter lets nest before it raises [RecursionError] (the
      recursion limit less the frames of the caller and of the calls a
      page takes).
    - [overflow_sends]: whether the GET of the page that does not fit has
      left when that error comes.
    - [link_error]: the message of the [ValueError] that
      [urllib.parse.urljoin] raises on a base url and a link text, when it
      raises (the base url itself and the paths of the script are taken to
      be accepted). *)
Class runtime : Type := mkRuntime {
  depth_limit : nat;
  overflow_sends : bool;
  link_error : string -> string -> option string
}.

(** The state of the generator [get_transactions_with_notes]. *)
Inductive scan_gen : Type :=
| ScanStart
| ScanPages (pages : pag_gen) (transactions : list value)
| ScanDone.

(** What one [next()] on a generator gives. *)
Inductive pull : Type :=
| Yield (v : value)
| Stop
| Throw (e : exn)
| Starved.

Section Program.

Context {rt : runtime}.

(** [urllib.parse.urljoin] *)
Variable urljoin : string -> string -> string.
(** [str(v)], as an f-string formats a value *)
Variable py_str : value -> string.
(** the ledger: the reply to a request, given the requests before it *)
Variable server : list request -> request -> reply.
(** the order in which a [set] built by these insertions is iterated *)
Variable set_iter : list string -> list string.

Definition process_api_response (r : response) (expected_type : shape)
  : result value :=
  match json_result r with
  | JsonRaises e => Raise e
  | JSONDecodeError =>
      Raise (ValueError ("Unexpected response format: " ++ text r))
  | Parsed data =>
      match match_error data with
      | Some (message, exception) =>
          Raise (RuntimeError (exception ++ ": " ++ message))
      | None =>
          match match_data data with
          | Some actual_data => validate_python expected_type actual_data
          | None =>
              Raise (ValueError ("Unexpected response format: " ++ py_str data))
          end
      end
  end.

(** [FireflySession.request]: the url is resolved against the base url,
    the request is sent and recorded.  Sending touches nothing but the
    record of the requests.  [urljoin] is the value of
    [urllib.parse.urljoin] where it returns one; a link text that comes
    from the ledger goes through [link_error] before it gets here (see
    [pag_items]). *)
Definition send (session : FireflySession) (m : method) (url : string)
    (params : list (string * string)) (body : option value)
    (sent : list request) : result response * list request :=
  let q := mkRequest m (urljoin (base_url session) url)
             ("Bearer " ++ api_token session) params body in
  (match server sent q with
   | Reply r => Ok r
   | Failure => Raise RequestException
   end,
   sent ++ [q]).

Definition session_get session url params sent :=
  send session GET url params None sent.

Definition session_post session url body sent :=
  send session POST url [] (Some body) sent.

(** A computation on the requests alone, run inside a whole state. *)
Definition on_reqs {A : Type}
    (f : list request -> result A * list request) : M A :=
  fun st =>
    let (a, sent) := f (reqs st) in
    (a, mkState sent (log_level st) (logs st)).

(** The head of [process_paginated_api_response]: the body is parsed,
    the page is decoded as [list[expected_type]] and an iterator is taken
    on it. *)
Definition pag_open (expected_type : shape) (r : response)
  : result (value * list value) :=
  match json_result r with
  | JsonRaises e => Raise e
  | JSONDecodeError =>
      Raise (ValueError ("Unexpected response format: " ++ text r))
  | Parsed data =>
      page <- process_api_response r (TList expected_type) ;;
      items <- py_iter page ;;
      Ok (data, items)
  end.

(** [next()] inside a page: the next item if there is one; otherwise the
    body is matched for [links.next], the following page is fetched and
    the generator of that page, one frame deeper, goes on. *)
Fixpoint pag_items (fuel : nat) (expected_type : shape)
    (session : FireflySession) (depth : nat) (data : value)
    (items : list value) (sent : list request)
  : pull * pag_gen * list request :=
  match items with
  | x :: rest => (Yield x, PagItems depth data rest, sent)
  | [] =>
      match match_next data with
      | None => (Stop, PagDone, sent)
      | Some next =>
          if (depth_limit <=? depth)%nat then
            (Throw RecursionError, PagDone,
             match link_error (base_url session) next with
             | None =>
                 if overflow_sends
                 then snd (session_get session next [] sent)
                 else sent
             | Some _ => sent
             end)
          else
            match link_error (base_url session) next with
            | Some message => (Throw (ValueError message), PagDone, sent)
            | None =>
                match fuel with
                | O => (Starved, PagItems depth data [], sent)
                | S fuel' =>
                    match session_get session next [] sent with
                    | (Ok r, sent') =>
                        match pag_open expected_type r with
                        | Ok (data', items') =>
                            pag_items fuel' expected_type session (S depth)
                              data' items' sent'
                        | Raise e => (Throw e, PagDone, sent')
                        | NoFuel => (Starved, PagDone, sent')
                        end
                    | (Raise e, sent') => (Throw e, PagDone, sent')
                    | (NoFuel, sent') => (Starved, PagDone, sent')
                    end
                end
            end
      end
  end.

(** [next()] on [process_paginated_api_response(r, ...)] *)
Definition pag_next (fuel : nat) (expected_type : shape)
    (session : FireflySession) (g : pag_gen) (sent : list request)
  : pull * pag_gen * list request :=
  match g with
  | PagStart depth r =>
      match pag_open expected_type r with
      | Ok (data, items) =>
          pag_items fuel expected_type session depth data items sent
      | Raise e => (Throw e, PagDone, sent)
      | NoFuel => (Starved, PagDone, sent)
      end
  | PagItems depth data items =>
      pag_items fuel expected_type session depth data items sent
  | PagDone => (Stop, PagDone, sent)
  end.

(** The generator a call makes: the first of the nest. *)
Definition process_paginated_api_response (r : response) : pag_gen :=
  PagStart 1 r.

Definition clause (k v : string) : string :=
  (k ++ ":" ++ str1 DQUOTE ++ v ++ str1 DQUOTE)%string.

Definition search_query (account : string) : string :=
  join " " [clause "account_is" account;
            clause "type" "withdrawal";
            clause "notes_contain" "Original account name"].

(** [page["attributes"]["transactions"]] and the iterator [yield from]
    takes on it *)
Definition page_transactions (page : value) : result (list value) :=
  a <- subscript page "attributes" ;;
  t <- subscript a "transactions" ;;
  py_iter t.

(** [next()] inside [get_transactions_with_notes], once the search has
    been sent. *)
Fixpoint scan_items (fuel : nat) (session : FireflySession)
    (pages : pag_gen) (transactions : list value) (sent : list request)
  : pull * scan_gen * list request :=
  match transactions with
  | t :: rest => (Yield t, ScanPages pages rest, sent)
  | [] =>
      match fuel with
      | O => (Starved, ScanPages pages [], sent)
      | S fuel' =>
          match pag_next fuel' TDict session pages sent with
          | (Yield page, pages', sent') =>
              match page_transactions page with
              | Ok transactions' =>
                  scan_items fuel' session pages' transactions' sent'
              | Raise e => (Throw e, ScanDone, sent')
              | NoFuel => (Starved, ScanDone, sent')
              end
          | (Stop, _, sent') => (Stop, ScanDone, sent')
          | (Throw e, _, sent') => (Throw e, ScanDone, sent')
          | (Starved, pages', sent') => (Starved, ScanPages pages' [], sent')
          end
      end
  end.

(** [next()] on [get_transactions_with_notes(session, account)] *)
Definition scan_next (fuel : nat) (session : FireflySession)
    (account : string) (g : scan_gen) (sent : list request)
  : pull * scan_gen * list request :=
  match g with
  | ScanStart =>
      match session_get session "/api/v1/search/transactions"
              [("query", search_query account)] sent with
      | (Ok r, sent') =>
          scan_items fuel session (process_paginated_api_response r) [] sent'
      | (Raise e, sent') => (Throw e, ScanDone, sent')
      | (NoFuel, sent') => (Starved, ScanDone, sent')
      end
  | ScanPages pages transactions =>
      scan_items fuel session pages transactions sent
  | ScanDone => (Stop, ScanDone, sent)
  end.

Definition get_transactions_with_notes : scan_gen := ScanStart.

Definition rule_json (account beneficiary group : string) : value :=
  VDict
    [("title", VStr beneficiary);
     ("rule_group_title", VStr group);
     ("strict", VBool true);
     ("trigger", VStr "store-journal");
     ("triggers",
      VList
        [VDict [("type", VStr "transaction_type");
                ("value", VStr "withdrawal")];
         VDict [("type", VStr "to_account_is");
                ("value", VStr account)];
         VDict [("type", VStr "notes_contains");
                ("value", VStr ("Original account name: " ++ beneficiary))]]);
     ("actions",
      VList
        [VDict [("type", VStr "set_destination_account");
                ("value", VStr beneficiary)]])].

Definition trigger_url (rule_id : value) : string :=
  ("/api/v1/rules/" ++ py_str rule_id ++ "/trigger")%string.

Definition create_fixing_rule (session : FireflySession)
    (account beneficiary group : string) : M value :=
  _ <<- LOGGER_log DEBUG "Creating rule %s in group %s"
          [VStr beneficiary; VStr group] ;;
  r <<- on_reqs (session_post session "/api/v1/rules"
                   (rule_json account beneficiary group)) ;;
  rule <<- lift (process_api_response r TDict) ;;
  rule_id <<- lift (subscript rule "id") ;;
  _ <<- LOGGER_log DEBUG "Triggering newly created rule %s (%s)"
          [rule_id; VStr beneficiary] ;;
  r' <<- on_reqs (session_post session (trigger_url rule_id) (VDict [])) ;;
  _ <<- lift (raise_for_status r') ;;
  ret rule.

(** [missing_rules.add(name)]; the list keeps the order of insertion. *)
Definition set_add (name : string) (s : list string) : list string :=
  if in_dec string_dec name s then s else s ++ [name].

(** [re.search(pattern, notes)] on a value: a [TypeError] unless the
    value is a [str]. *)
Definition search_notes (notes : value) : result (option string) :=
  match notes with
  | VStr s => Ok (re_search s)
  | _ => Raise TypeError
  end.

(** The body of the loop over the transactions. *)
Definition scan_body (transaction : value) (missing_rules : list string)
  : M (list string) :=
  id <<- lift (subscript transaction "transaction_journal_id") ;;
  notes <<- lift (subscript transaction "notes") ;;
  _ <<- LOGGER_log DEBUG "Transaction %s: %s" [id; notes] ;;
  notes <<- lift (subscript transaction "notes") ;;
  matched <<- lift (search_notes notes) ;;
  match matched with
  | None =>
      id <<- lift (subscript transaction "transaction_journal_id") ;;
      notes <<- lift (subscript transaction "notes") ;;
      _ <<- LOGGER_log ERROR "Failed to match note of transaction %s: %s"
              [id; notes] ;;
      ret missing_rules
  | Some group1 => ret (set_add (strip group1) missing_rules)
  end.

(** [for transaction in get_transactions_with_notes(session, account)] *)
Fixpoint scan_loop (fuel : nat) (session : FireflySession)
    (account : string) (g : scan_gen) (missing_rules : list string)
    (st : state) : result (list string) * state :=
  match fuel with
  | O => (NoFuel, st)
  | S fuel' =>
      let at_reqs sent := mkState sent (log_level st) (logs st) in
      match scan_next fuel' session account g (reqs st) with
      | (Yield transaction, g', sent) =>
          match scan_body transaction missing_rules (at_reqs sent) with
          | (Ok missing_rules', st') =>
              scan_loop fuel' session account g' missing_rules' st'
          | (Raise e, st') => (Raise e, st')
          | (NoFuel, st') => (NoFuel, st')
          end
      | (Stop, _, sent) => (Ok missing_rules, at_reqs sent)
      | (Throw e, _, sent) => (Raise e, at_reqs sent)
      | (Starved, _, sent) => (NoFuel, at_reqs sent)
      end
  end.

(** [for beneficiary in missing_rules] *)
Fixpoint provision (session : FireflySession) (account group : string)
    (beneficiaries : list string) : M unit :=
  match beneficiaries with
  | [] => ret tt
  | beneficiary :: rest =>
      rule <<- create_fixing_rule session account beneficiary group ;;
      a <<- lift (subscript rule "attributes") ;;
      title <<- lift (subscript a "title") ;;
      rule_id <<- lift (subscript rule "id") ;;
      _ <<- LOGGER_log INFO "Successfully created rule %s (%s)"
              [title; rule_id] ;;
      provision session account group rest
  end.

Definition authenticate (session : FireflySession) : M unit :=
  r <<- on_reqs (session_get session "/api/v1/about/user" []) ;;
  user <<- lift (process_api_response r TDict) ;;
  a <<- lift (subscript user "attributes") ;;
  email <<- lift (subscript a "email") ;;
  LOGGER_log INFO "Authenticated as %s" [email].

Definition main (fuel : nat) (verbose : Z) (url access_token group : string)
    (dry_run : bool) (account : string) : M unit :=
  _ <<- setup_logging verbose ;;
  let session := mkSession url access_token in
  _ <<- authenticate session ;;
  missing_rules <<-
    scan_loop fuel session account get_transactions_with_notes [] ;;
  match missing_rules with
  | [] =>
      LOGGER_log INFO
        "No transaction towards account %s need fixing, no rule to create"
        [VStr account]
  | _ =>
      let order := set_iter missing_rules in
      _ <<- LOGGER_log INFO
              ("Account %s contains transactions towards %d other beneficiaries:"
               ++ str1 LF ++ "- %s")
              [VStr account; VInt (Z.of_nat (List.length missing_rules));
               VStr (join (str1 LF ++ "- ") order)] ;;
      _ <<- LOGGER_log INFO "New rules will be created in rule group %s"
              [VStr group] ;;
      if dry_run then ret tt
      else provision session account group order
  end.

End Program.

(** ** The wording of the specification *)

(** The error envelope: an object with a textual [message] and a textual
    [exception]. *)
Definition error_envelope (data : value) (message exception : string) : Prop :=
  exists kvs,
    data = VDict kvs /\
    lookup "message" kvs = Some (VStr message) /\
    lookup "exception" kvs = Some (VStr exception).

(** The success envelope: an object with a [data] field. *)
Definition success_envelope (data payload : value) : Prop :=
  exists kvs, data = VDict kvs /\ lookup "data" kvs = Some payload.

(** [sub] occurs in [s]. *)
Definition occurs (sub s : string) : Prop :=
  exists a b, s = (a ++ sub ++ b)%string.

(** [sub] occurs in [pre ++ sub] at the very end only: in a string that
    starts with [pre ++ sub], the leftmost occurrence of [sub] is the one
    after [pre]. *)
Definition leftmost (sub pre : string) : Prop :=
  forall a b, (pre ++ sub)%string = (a ++ sub ++ b)%string -> b = EmptyString.

(** [s] without its first [k] characters. *)
Fixpoint skip (k : nat) (s : string) : string :=
  match k, s with
  | O, _ => s
  | S k', String _ s' => skip k' s'
  | S _, EmptyString => EmptyString
  end.

Definition no_newline (s : string) : Prop :=
  ~ In LF (list_ascii_of_string s).

(** [s] is empty or starts with a line feed. *)
Definition at_line_end (s : string) : Prop :=
  s = EmptyString \/ exists s', s = String LF s'.

(** The whitespace of Python among the code points below 256, as the
    language reference lists it: tab, line feed, vertical tab, form feed,
    carriage return, the separators 28 to 31, space, next line (133) and
    no-break space (160). *)
Definition whitespace (c : ascii) : Prop :=
  In (nat_of_ascii c) [9; 10; 11; 12; 13; 28; 29; 30; 31; 32; 133; 160]%nat.

Definition all_space (s : string) : Prop :=
  Forall whitespace (list_ascii_of_string s).

(** [t] neither starts nor ends with whitespace. *)
Definition clean_ends (t : string) : Prop :=
  (forall c t', t = String c t' -> ~ whitespace c) /\
  (forall c t', t = (t' ++ str1 c)%string -> ~ whitespace c).

(** [t] is [s] without its leading and trailing whitespace. *)
Definition trimmed (s t : string) : Prop :=
  exists l r,
    s = (l ++ t ++ r)%string /\ all_space l /\ all_space r /\ clean_ends t.

(** ** Sample data *)

Definition TAB : ascii := ascii_of_nat 9.
Definition CR : ascii := ascii_of_nat 13.

(** A note with a line before the marker, blanks and a tab around the
    name and a carriage return before the line feed. *)
Definition padded_note : string :=
  ("ref 1" ++ str1 LF ++ "Original account name: " ++ str1 TAB
   ++ " Acme Corp  " ++ str1 CR ++ str1 LF ++ "extra line")%string.

Definition acme_note : string :=
  ("Original account name: Acme Corp" ++ str1 LF ++ "extra line")%string.

Definition json_response (v : value) : response :=
  mkResponse 200 "(body)" (Parsed v).

(** An object that is both an error envelope and a success envelope. *)
Definition both_envelopes : value :=
  VDict [("data", VDict []);
         ("message", VStr "m");
         ("exception", VStr "e")].

Definition sample_str (v : value) : string :=
  match v with
  | VStr s => s
  | _ => "(value)"
  end.

(** ** A caller that pulls a generator to its end *)

Section Consumers.

Context {rt : runtime}.

Variable urljoin : string -> string -> string.
Variable py_str : value -> string.
Variable server : list request -> request -> reply.

(** [for x in process_paginated_api_response(...)]: the items in the
    order they are yielded, each with the requests that had been sent by
    the time it was yielded; how the generator ended; the requests sent
    in the end. *)
Fixpoint pag_drain (fuel : nat) (T : shape) (session : FireflySession)
    (g : pag_gen) (sent : list request)
  : list (value * list request) * result unit * list request :=
  match fuel with
  | O => ([], NoFuel, sent)
  | S fuel' =>
      match pag_next urljoin py_str server fuel' T session g sent with
      | (Yield x, g', sent') =>
          let '(l, r, s) := pag_drain fuel' T session g' sent' in
          ((x, sent') :: l, r, s)
      | (Stop, _, sent') => ([], Ok tt, sent')
      | (Throw e, _, sent') => ([], Raise e, sent')
      | (Starved, _, sent') => ([], NoFuel, sent')
      end
  end.

(** [for t in get_transactions_with_notes(...)] *)
Fixpoint scan_drain (fuel : nat) (session : FireflySession)
    (account : string) (g : scan_gen) (sent : list request)
  : list value * result unit * list request :=
  match fuel with
  | O => ([], NoFuel, sent)
  | S fuel' =>
      match scan_next urljoin py_str server fuel' session account g sent with
      | (Yield t, g', sent') =>
          let '(l, r, s) := scan_drain fuel' session account g' sent' in
          (t :: l, r, s)
      | (Stop, _, sent') => ([], Ok tt, sent')
      | (Throw e, _, sent') => ([], Raise e, sent')
      | (Starved, _, sent') => ([], NoFuel, sent')
      end
  end.

(** The request [session.get(url)] sends. *)
Definition get_request (session : FireflySession) (url : string)
  : request :=
  mkRequest GET (urljoin (base_url session) url)
    ("Bearer " ++ api_token session) [] None.

(** The request that creates the rule of [beneficiary]. *)
Definition creation_request (session : FireflySession)
    (account group beneficiary : string) : request :=
  mkRequest POST (urljoin (base_url session) "/api/v1/rules")
    ("Bearer " ++ api_token session) []
    (Some (rule_json account beneficiary group)).

(** The request that triggers the rule [rule_id]. *)
Definition trigger_request (session : FireflySession) (rule_id : value)
  : request :=
  mkRequest POST (urljoin (base_url session) (trigger_url py_str rule_id))
    ("Bearer " ++ api_token session) [] (Some (VDict [])).

(** [body] carries a textual [links.next]. *)
Definition next_link (body : value) (url : string) : Prop :=
  exists kvs links,
    body = VDict kvs /\
    lookup "links" kvs = Some (VDict links) /\
    lookup "next" links = Some (VStr url).

(** [r] is a page of a paginated answer: a success envelope around a
    list of items of shape [T], with or without a link to a next page. *)
Definition is_page (T : shape) (r : response) (items : list value)
    (next : option string) : Prop :=
  exists body,
    r_json r = Some body /\
    success_envelope body (VList items) /\
    (forall message exception, ~ error_envelope body message exception) /\
    Forall (conforms T) items /\
    match next with
    | Some url => next_link body url
    | None => forall url, ~ next_link body url
    end.

(** A paginated answer: [r] is a page with [items]; each further page
    [(url, items')] is what the ledger serves under the link of the page
    before it, and the last page has no link. *)
Fixpoint paged (T : shape) (session : FireflySession)
    (sent : list request) (r : response) (items : list value)
    (rest : list (string * list value)) : Prop :=
  match rest with
  | [] => is_page T r items None
  | (url, items') :: rest' =>
      is_page T r items (Some url) /\
      link_error (base_url session) url = None /\
      exists r',
        server sent (get_request session url) = Reply r' /\
        paged T session (sent ++ [get_request session url]) r' items' rest'
  end.

(** The pages that follow the one whose body is [data]. *)
Definition follows (T : shape) (session : FireflySession) (data : value)
    (sent : list request) (rest : list (string * list value)) : Prop :=
  match rest with
  | [] => match_next data = None
  | (url, items') :: rest' =>
      match_next data = Some url /\
      link_error (base_url session) url = None /\
      exists r',
        server sent (get_request session url) = Reply r' /\
        paged T session (sent ++ [get_request session url]) r' items' rest'
  end.

(** The items of all pages in order, each with the requests sent before
    it comes out: the GET of a page stands between the last item of the
    page before and its own first item. *)
Fixpoint timeline (session : FireflySession) (sent : list request)
    (items : list value) (rest : list (string * list value))
  : list (value * list request) :=
  map (fun x => (x, sent)) items ++
  match rest with
  | [] => []
  | (url, items') :: rest' =>
      timeline session (sent ++ [get_request session url]) items' rest'
  end.

Definition page_requests (session : FireflySession)
    (rest : list (string * list value)) : list request :=
  map (fun p => get_request session (fst p)) rest.

End Consumers.

(** The number of items and of further pages of a paginated answer: the
    fuel that pulling all of it takes. *)
Definition weight (items : list value) (rest : list (string * list value))
  : nat :=
  List.length items + list_sum (map (fun p => S (List.length (snd p))) rest).

(** ** The scan, in the words of the specification *)

(** A transaction as the data model has it: an object with a journal id
    and textual notes. *)
Definition well_formed (t : value) : Prop :=
  exists id notes,
    subscript t "transaction_journal_id" = Ok id /\
    subscript t "notes" = Ok (VStr notes).

(** The beneficiary a transaction names, if its notes match. *)
Definition beneficiary_of (t : value) : option string :=
  match subscript t "notes" with
  | Ok (VStr notes) => option_map strip (re_search notes)
  | _ => None
  end.

Definition add_beneficiary (missing_rules : list string) (t : value)
  : list string :=
  match beneficiary_of t with
  | Some name => set_add name missing_rules
  | None => missing_rules
  end.

(** The names of a list of transactions, in the order of first
    appearance. *)
Definition collect (transactions : list value) (missing_rules : list string)
  : list string :=
  fold_left add_beneficiary transactions missing_rules.

Definition is_error (r : log_record) : bool := (levelno r =? ERROR)%Z.

(** The record the scan emits for a transaction whose notes do not
    match. *)
Definition no_match_record (t : value) : list log_record :=
  match subscript t "transaction_journal_id", subscript t "notes" with
  | Ok id, Ok notes =>
      match beneficiary_of t with
      | Some _ => []
      | None =>
          [mkRecord ERROR "Failed to match note of transaction %s: %s"
             [id; notes]]
      end
  | _, _ => []
  end.

(** The title of the rule a request creates: the textual [title] of the
    JSON body of a POST. *)
Definition creation_title (q : request) : option string :=
  match rq_method q, rq_json q with
  | POST, Some (VDict kvs) =>
      match lookup "title" kvs with
      | Some (VStr title) => Some title
      | _ => None
      end
  | _, _ => None
  end.

Definition creation_titles (sent : list request) : list string :=
  flat_map (fun q => match creation_title q with
                     | Some title => [title]
                     | None => []
                     end) sent.

Definition lookup_or_type_error (e : exn) : Prop :=
  match e with
  | KeyError _ | TypeError => True
  | _ => False
  end.

(** ** A sample ledger *)

(** Room for three nested generators; every link text is accepted. *)
Definition sample_runtime : runtime := mkRuntime 3 false (fun _ _ => None).

(** Room for two nested generators only. *)
Definition tight_runtime : runtime := mkRuntime 2 true (fun _ _ => None).

Definition sample_join (base url : string) : string := (base ++ url)%string.

Definition sample_session : FireflySession :=
  mkSession "https://ledger.test" "secret".

Definition user_body : value :=
  VDict [("data",
          VDict [("attributes", VDict [("email", VStr "me@ledger.test")])])].

(** One element of a page of search results. *)
Definition group_of (transactions : list value) : value :=
  VDict [("attributes", VDict [("transactions", VList transactions)])].

Definition transaction (id notes : string) : value :=
  VDict [("transaction_journal_id", VStr id); ("notes", VStr notes)].

Definition page_body (elements : list value) (next : option string) : value :=
  VDict (("data", VList elements) ::
         match next with
         | Some url => [("links", VDict [("next", VStr url)])]
         | None => [("links", VDict [])]
         end).

(** The rule the ledger answers with: the title it was sent, under id 7. *)
Definition created_rule (body : option value) : value :=
  VDict [("id", VStr "7");
         ("attributes",
          VDict [("title",
                  match body with
                  | Some (VDict kvs) =>
                      match lookup "title" kvs with
                      | Some title => title
                      | None => VNone
                      end
                  | _ => VNone
                  end)])].

(** A ledger with up to three pages of search results that answers the
    trigger call with [trigger_status]. *)
Definition sample_ledger (page1 page2 page3 : list value)
    (trigger_status : Z) (sent : list request) (q : request) : reply :=
  let at_url path :=
    String.eqb (rq_url q) ("https://ledger.test" ++ path) in
  match rq_method q with
  | GET =>
      if at_url "/api/v1/about/user" then Reply (json_response user_body)
      else if at_url "/api/v1/search/transactions"
      then Reply (json_response (page_body page1 (Some "/search?page=2")))
      else if at_url "/search?page=2"
      then Reply (json_response (page_body page2 (Some "/search?page=3")))
      else if at_url "/search?page=3"
      then Reply (json_response (page_body page3 None))
      else Reply (mkResponse 404 "not found" JSONDecodeError)
  | POST =>
      if at_url "/api/v1/rules"
      then Reply (json_response (VDict [("data", created_rule (rq_json q))]))
      else Reply (mkResponse trigger_status EmptyString JSONDecodeError)
  end.

Definition acme1 : value := transaction "1" "Original account name: Acme Corp".
Definition acme2 : value :=
  transaction "2" ("note" ++ str1 LF ++ "Original account name:   Acme Corp ").
Definition total_wine : value :=
  transaction "3" "Original account name: Total Wine".
Definition unmarked : value := transaction "4" "lunch".

Abbreviation sample_main ledger dry_run :=
  (main (rt := sample_runtime) sample_join sample_str ledger (@rev string)
     20 0
     "https://ledger.test" "secret" "Fixes" dry_run "12" init).

(** Three pages of results; the second is empty, and two transactions
    name the same beneficiary. *)
Definition three_pages : list request -> request -> reply :=
  sample_ledger [group_of [acme1; unmarked]; group_of []] []
    [group_of [acme2; total_wine]] 204.

Definition about_user : request :=
  get_request sample_join sample_session "/api/v1/about/user".

(** Three pages of plain objects. *)
Definition item (n : Z) : value := VDict [("n", VInt n)].

Definition numbered_pages : list request -> request -> reply :=
  sample_ledger [item 1; item 2] [item 3] [item 4] 204.

Definition first_page : response :=
  json_response (page_body [item 1; item 2] (Some "/search?page=2")).

Definition get_page (n : string) : request :=
  get_request sample_join sample_session ("/search?page=" ++ n).

(** ** Elements the scan cannot read *)

(** A page element without [attributes], or whose attributes are an
    object without [transactions]. *)
Definition malformed_element (p : value) : Prop :=
  (exists kvs, p = VDict kvs /\ lookup "attributes" kvs = None) \/
  (exists kvs a,
     p = VDict kvs /\ lookup "attributes" kvs = Some (VDict a) /\
     lookup "transactions" a = None).

(** A transaction object without journal id or without notes, or whose
    notes are not a string. *)
Definition malformed_transaction (t : value) : Prop :=
  exists kvs,
    t = VDict kvs /\
    (lookup "transaction_journal_id" kvs = None \/
     lookup "notes" kvs = None \/
     exists v, lookup "notes" kvs = Some v /\ forall s, v <> VStr s).

(** A page element the scan stops at: malformed itself, or with a
    malformed transaction among its transactions. *)
Definition unreadable (p : value) : Prop :=
  malformed_element p \/
  exists transactions t,
    page_transactions p = Ok transactions /\
    In t transactions /\ malformed_transaction t.

(** The number of transactions of a list of page elements. *)
Definition transaction_count (elements : list value) : nat :=
  list_sum (map (fun p => match page_transactions p with
                          | Ok l => List.length l
                          | _ => 0%nat
                          end) elements).

Definition search_request (urljoin : string -> string -> string)
    (session : FireflySession) (account : string) : request :=
  mkRequest GET (urljoin (base_url session) "/api/v1/search/transactions")
    ("Bearer " ++ api_token session) [("query", search_query account)] None.

(** A ledger whose only page holds a good element, an element without
    [attributes] and a further good element. *)
Definition broken_element : list request -> request -> reply :=
  sample_ledger [group_of [acme1]; VDict [("id", VStr "x")];
                 group_of [total_wine]] [] [] 204.

(** A ledger with a transaction that has no notes. *)
Definition broken_transaction : list request -> request -> reply :=
  sample_ledger [group_of [acme1;
                           VDict [("transaction_journal_id", VStr "5")]]]
    [] [] 204.

(** ** Predicates on computations and elements *)

(** A computation that sends no POST. *)
Definition read_only {A : Type} (m : M A) : Prop :=
  forall st,
    filter is_post (reqs (snd (m st))) = filter is_post (reqs st).

Definition loop_result (res : result unit) (missing_rules : list string)
  : result (list string) :=
  match res with
  | Ok _ => Ok missing_rules
  | Raise e => Raise e
  | NoFuel => NoFuel
  end.

(** A page element at which the scan stops. *)
Definition stops (p : value) : Prop :=
  (exists e, page_transactions p = Raise e) \/
  (exists transactions,
     page_transactions p = Ok transactions /\
     Exists (fun t => ~ well_formed t) transactions).


(** ** How a run leaves its state *)

(** A request as [FireflySession.request] sends it: the bearer token in
    the [Authorization] header and a url resolved against the base url. *)
Definition from_session (urljoin : string -> string -> string)
    (session : FireflySession) (q : request) : Prop :=
  rq_authorization q = ("Bearer " ++ api_token session)%string /\
  exists path, rq_url q = urljoin (base_url session) path.

(** [sent'] is [sent] with requests that satisfy [P] after it. *)
Definition appended (P : request -> Prop) (sent sent' : list request) : Prop :=
  exists more, sent' = sent ++ more /\ Forall P more.

(** [st'] continues [st]: requests that satisfy [P] have been appended,
    the level of the logger is the same and every record appended reaches
    that level. *)
Definition continues (P : request -> Prop) (st st' : state) : Prop :=
  appended P (reqs st) (reqs st') /\
  log_level st' = log_level st /\
  exists records,
    logs st' = logs st ++ records /\
    Forall (fun r => (log_level st <= levelno r)%Z) records.

Definition steady (P : request -> Prop) {A : Type} (m : M A) : Prop :=
  forall st, continues P st (snd (m st)).

(** A ledger that turns every request down with an error envelope. *)
Definition locked_out (sent : list request) (q : request) : reply :=
  Reply (json_response
           (VDict [("message", VStr "Unauthenticated.");
                   ("exception", VStr "AuthenticationException")])).

(** The POSTs of a provisioning that got through [names]: each rule is
    created and then triggered before the next one is created; the last
    creation stands alone when the loop stopped on its answer. *)
Inductive provisioned (urljoin : string -> string -> string)
    (py_str : value -> string) (session : FireflySession)
    (account group : string) : list string -> list request -> Prop :=
| provisioned_nil :
    provisioned urljoin py_str session account group [] []
| provisioned_alone name :
    provisioned urljoin py_str session account group [name]
      [creation_request urljoin session account group name]
| provisioned_cons name rule_id names posts :
    provisioned urljoin py_str session account group names posts ->
    provisioned urljoin py_str session account group (name :: names)
      (creation_request urljoin session account group name
       :: trigger_request urljoin py_str session rule_id :: posts).

(** A ledger on which triggering a rule fails. *)
Definition failing_trigger : list request -> request -> reply :=
  sample_ledger [group_of [acme1; unmarked]; group_of []] []
    [group_of [acme2; total_wine]] 500.

Definition total_wine2 : value :=
  transaction "5" "Original account name: Total Wine ".

(** A ledger on which every name is yielded by two transactions and
    triggering a rule fails. *)
Definition twice_each : list request -> request -> reply :=
  sample_ledger [group_of [acme1; total_wine]] []
    [group_of [acme2; total_wine2]] 500.

(** * Properties *)

(** ** Strings *)

Lemma append_nil_r (s : string) : (s ++ EmptyString)%string = s.
Proof. induction s as [|c s IH]; simpl; [reflexivity | now rewrite IH]. Qed.

Lemma append_assoc (a b c : string) :
  ((a ++ b) ++ c)%string = (a ++ (b ++ c))%string.
Proof. induction a as [|x a IH]; simpl; [reflexivity | now rewrite IH]. Qed.

Lemma length_append (a b : string) :
  String.length (a ++ b) = (String.length a + String.length b)%nat.
Proof. induction a as [|x a IH]; simpl; [reflexivity | now rewrite IH]. Qed.

Lemma list_ascii_append (a b : string) :
  list_ascii_of_string (a ++ b)
  = list_ascii_of_string a ++ list_ascii_of_string b.
Proof. induction a as [|x a IH]; simpl; [reflexivity | now rewrite IH]. Qed.

Lemma match_literal_append (p s : string) :
  match_literal p (p ++ s) = Some s.
Proof.
  induction p as [|a p IH]; cbn [match_literal append]; [reflexivity|].
  now rewrite Ascii.eqb_refl.
Qed.

Lemma match_literal_inv (p s r : string) :
  match_literal p s = Some r -> s = (p ++ r)%string.
Proof.
  revert s; induction p as [|a p IH]; intros s H;
    cbn [match_literal append] in *.
  - now inversion H.
  - destruct s as [|b s]; [discriminate|].
    destruct (Ascii.eqb_spec a b) as [->|]; [|discriminate].
    now rewrite (IH _ H).
Qed.

Lemma match_not_newline_split (s : string) :
  exists rest,
    s = (match_not_newline s ++ rest)%string /\
    no_newline (match_not_newline s) /\ at_line_end rest.
Proof.
  induction s as [|c s (rest & Hs & Hn & Hr)]; cbn [match_not_newline].
  - exists EmptyString. repeat split; [intros [] | now left].
  - destruct (Ascii.eqb_spec c LF) as [->|Hc].
    + exists (String LF s). repeat split; [intros [] | right; now exists s].
    + exists rest. cbn [append]. split; [now rewrite <- Hs|].
      split; [|exact Hr].
      intros [H|H]; [now apply Hc | now apply Hn].
Qed.

Lemma match_not_newline_exact (cap rest : string) :
  no_newline cap -> at_line_end rest ->
  match_not_newline (cap ++ rest) = cap.
Proof.
  intros Hn Hr. induction cap as [|c cap IH]; cbn [append match_not_newline].
  - destruct Hr as [->|(s' & ->)]; cbn [match_not_newline]; [reflexivity|].
    now rewrite Ascii.eqb_refl.
  - destruct (Ascii.eqb_spec c LF) as [->|_].
    + exfalso. apply Hn. now left.
    + rewrite IH; [reflexivity|]. intros H. apply Hn. now right.
Qed.

Lemma re_search_here (s cap : string) :
  match_here s = Some cap -> re_search s = Some cap.
Proof. intros H. destruct s; cbn [re_search]; now rewrite H. Qed.

(** The search finds the marker wherever it stands. *)
Lemma re_search_occurs (s : string) :
  occurs marker s -> re_search s <> None.
Proof.
  intros (a & b & ->). induction a as [|c a IH].
  - cbn [append]. erewrite re_search_here; [discriminate|].
    unfold match_here. rewrite match_literal_append. reflexivity.
  - change (String c a ++ marker ++ b)%string
      with (String c (a ++ marker ++ b)%string).
    cbn [re_search].
    destruct (match_here (String c (a ++ marker ++ b))); [discriminate|].
    exact IH.
Qed.

(** What the search returns is the text between the leftmost marker and
    the end of its line. *)
Lemma re_search_sound (s cap : string) :
  re_search s = Some cap ->
  exists pre rest,
    s = (pre ++ marker ++ cap ++ rest)%string /\
    leftmost marker pre /\ no_newline cap /\ at_line_end rest.
Proof.
  revert cap; induction s as [|c s IH]; intros cap H.
  - discriminate.
  - cbn [re_search] in H.
    destruct (match_here (String c s)) as [cap'|] eqn:Hh.
    + inversion H; subst cap'. unfold match_here in Hh.
      destruct (match_literal marker (String c s)) as [r|] eqn:Hm;
        [|discriminate].
      inversion Hh as [Hcap]. apply match_literal_inv in Hm.
      destruct (match_not_newline_split r) as (rest & Hr & Hn & He).
      exists EmptyString, rest. split; [|split; [|split]].
      * cbn [append]. rewrite Hm. f_equal. exact Hr.
      * intros a b Hab. cbn [append] in Hab.
        apply (f_equal String.length) in Hab.
        rewrite !length_append in Hab.
        destruct b; [reflexivity|]. simpl in Hab. lia.
      * exact Hn.
      * exact He.
    + destruct (IH _ H) as (pre & rest & Hs & Hl & Hn & He).
      exists (String c pre), rest. split; [|split; [|split]].
      * cbn [append]. now rewrite Hs.
      * intros a b Hab. destruct a as [|x a].
        -- exfalso.
           change (EmptyString ++ marker ++ b)%string
             with (marker ++ b)%string in Hab.
           assert (Hm : match_literal marker (String c s)
                        = Some (b ++ cap ++ rest)%string).
           { replace (String c s)
               with ((String c pre ++ marker) ++ cap ++ rest)%string.
             - rewrite Hab, append_assoc. apply match_literal_append.
             - rewrite append_assoc. cbn [append]. now rewrite Hs. }
           unfold match_here in Hh. rewrite Hm in Hh. discriminate.
        -- change (String c pre ++ marker)%string
             with (String c (pre ++ marker)%string) in Hab.
           change (String x a ++ marker ++ b)%string
             with (String x (a ++ marker ++ b)%string) in Hab.
           inversion Hab; subst x. now apply (Hl a b).
      * exact Hn.
      * exact He.
Qed.

Lemma prefix_split (p x y r : string) :
  (x ++ y)%string = (p ++ r)%string ->
  (String.length p <= String.length x)%nat ->
  exists b, x = (p ++ b)%string.
Proof.
  revert x; induction p as [|a p IH]; intros x H Hlen.
  - now exists x.
  - destruct x as [|c x]; [simpl in Hlen; lia|].
    cbn [append] in H. inversion H; subst c.
    destruct (IH x) as (b & ->); [assumption | simpl in Hlen; lia|].
    now exists b.
Qed.

(** Conversely: a decomposition around the leftmost marker fixes the
    answer of the search. *)
Lemma re_search_complete (pre cap rest : string) :
  leftmost marker pre -> no_newline cap -> at_line_end rest ->
  re_search (pre ++ marker ++ cap ++ rest) = Some cap.
Proof.
  intros Hl Hn He. induction pre as [|c pre IH].
  - cbn [append]. 
    apply re_search_here. unfold match_here.
    rewrite match_literal_append. cbn [option_map].
    now rewrite match_not_newline_exact.
  - change (String c pre ++ marker ++ cap ++ rest)%string
      with (String c (pre ++ marker ++ cap ++ rest)%string).
    cbn [re_search].
    destruct (match_here (String c (pre ++ marker ++ cap ++ rest)))
      as [cap'|] eqn:Hh.
    + exfalso. unfold match_here in Hh.
      destruct (match_literal marker (String c (pre ++ marker ++ cap ++ rest)))
        as [r|] eqn:Hm; [|discriminate].
      apply match_literal_inv in Hm.
      (* the marker would occur before the end of [pre ++ marker] *)
      destruct (prefix_split marker (String c pre ++ marker)
                  (cap ++ rest) r) as (b & Hb).
      { rewrite append_assoc. exact Hm. }
      { rewrite length_append. lia. }
      assert (b = EmptyString) by (apply (Hl EmptyString b); exact Hb).
      subst b. apply (f_equal String.length) in Hb.
      rewrite !length_append in Hb. simpl in Hb. lia.
    + apply IH. intros a b Hab. apply (Hl (String c a) b).
      cbn [append]. now rewrite Hab.
Qed.

(** ** Whitespace *)

Lemma isspace_whitespace (c : ascii) : isspace c = true <-> whitespace c.
Proof.
  unfold isspace, whitespace, nat_of_ascii. cbn [In].
  set (n := N_of_ascii c).
  rewrite !Bool.orb_true_iff, !Bool.andb_true_iff, !N.leb_le, !N.eqb_eq.
  lia.
Qed.

Lemma isspace_not_whitespace (c : ascii) :
  isspace c = false <-> ~ whitespace c.
Proof.
  rewrite <- isspace_whitespace. destruct (isspace c); split; intros H;
    congruence.
Qed.

Lemma lstrip_split (s : string) :
  exists l,
    s = (l ++ lstrip s)%string /\ all_space l /\
    (forall c t, lstrip s = String c t -> ~ whitespace c).
Proof.
  induction s as [|c s (l & Hs & Hl & Hc)]; cbn [lstrip].
  - exists EmptyString. repeat split; [constructor | discriminate].
  - destruct (isspace c) eqn:E.
    + exists (String c l). cbn [append]. split; [now rewrite <- Hs|].
      split; [|exact Hc].
      constructor; [now apply isspace_whitespace | exact Hl].
    + exists EmptyString. repeat split; [constructor|].
      intros c' t H. inversion H; subst.
      now apply isspace_not_whitespace.
Qed.

Lemma rstrip_split (s : string) :
  exists r, s = (rstrip s ++ r)%string /\ all_space r.
Proof.
  induction s as [|c s (r & Hs & Hr)]; cbn [rstrip].
  - exists EmptyString. split; [reflexivity | constructor].
  - destruct (rstrip s) as [|d t] eqn:E.
    + cbn [append] in Hs. subst r. destruct (isspace c) eqn:Ec.
      * exists (String c s). split; [reflexivity|].
        constructor; [now apply isspace_whitespace | exact Hr].
      * exists s. split; [reflexivity | exact Hr].
    + exists r. cbn [append] in *. split; [now rewrite <- Hs | exact Hr].
Qed.

Lemma rstrip_last (s t : string) (c : ascii) :
  rstrip s = (t ++ str1 c)%string -> ~ whitespace c.
Proof.
  revert t; induction s as [|x s IH]; intros t H; cbn [rstrip] in H.
  - destruct t; discriminate.
  - destruct (rstrip s) as [|d r] eqn:E.
    + destruct (isspace x) eqn:Ex; [destruct t; discriminate|].
      destruct t as [|y t].
      * inversion H; subst. now apply isspace_not_whitespace.
      * cbn [append] in H. inversion H. destruct t; discriminate.
    + destruct t as [|y t]; [discriminate|].
      cbn [append] in H. inversion H. now apply (IH t).
Qed.

(** [strip] removes the whitespace at both ends and nothing else. *)
Lemma strip_trimmed (s : string) : trimmed s (strip s).
Proof.
  unfold trimmed, clean_ends, strip.
  destruct (lstrip_split s) as (l & Hs & Hl & Hc).
  destruct (rstrip_split (lstrip s)) as (r & Hr & Hsp).
  exists l, r. split; [now rewrite <- Hr|]. split; [exact Hl|].
  split; [exact Hsp|]. split.
  - intros c t H. rewrite H in Hr. cbn [append] in Hr. now apply (Hc c _ Hr).
  - intros c t H. now apply (rstrip_last _ _ _ H).
Qed.

Lemma lstrip_space (l s : string) :
  all_space l -> lstrip (l ++ s) = lstrip s.
Proof.
  induction l as [|c l IH]; intros H; [reflexivity|].
  inversion H as [|? ? Hc Hl]; subst. cbn [append lstrip].
  apply isspace_whitespace in Hc. rewrite Hc. now apply IH.
Qed.

Lemma rstrip_space (r : string) : all_space r -> rstrip r = EmptyString.
Proof.
  induction r as [|c r IH]; intros H; [reflexivity|].
  inversion H as [|? ? Hc Hr]; subst. cbn [rstrip]. rewrite (IH Hr).
  apply isspace_whitespace in Hc. now rewrite Hc.
Qed.

Lemma rstrip_app_space (t r : string) :
  all_space r -> rstrip (t ++ r) = rstrip t.
Proof.
  intros Hr. induction t as [|c t IH]; cbn [append rstrip].
  - now apply rstrip_space.
  - now rewrite IH.
Qed.

Lemma rstrip_clean (t : string) :
  (forall c t', t = (t' ++ str1 c)%string -> ~ whitespace c) ->
  rstrip t = t.
Proof.
  induction t as [|c t IH]; intros H; [reflexivity|]. cbn [rstrip].
  rewrite IH.
  - destruct t as [|d t]; [|reflexivity].
    assert (Hc : ~ whitespace c) by (apply (H c EmptyString); reflexivity).
    apply isspace_not_whitespace in Hc. now rewrite Hc.
  - intros x t' Ht. apply (H x (String c t')). cbn [append]. now rewrite Ht.
Qed.

(** What [strip] returns is fixed by that: whenever [s] is whitespace,
    then [t], then whitespace, and [t] has clean ends, [strip s] is
    [t]. *)
Lemma strip_unique (s l t r : string) :
  s = (l ++ t ++ r)%string -> all_space l -> all_space r -> clean_ends t ->
  strip s = t.
Proof.
  intros -> Hl Hr [Hfirst Hlast]. unfold strip.
  rewrite (lstrip_space l _ Hl).
  destruct t as [|c t].
  - cbn [append].
    assert (E : lstrip r = EmptyString).
    { clear Hl. induction r as [|x r IH]; [reflexivity|].
      inversion Hr as [|? ? Hx Hr']; subst. cbn [lstrip].
      apply isspace_whitespace in Hx. rewrite Hx. now apply IH. }
    now rewrite E.
  - assert (Hc : ~ whitespace c) by (apply (Hfirst c t); reflexivity).
    apply isspace_not_whitespace in Hc.
    change (String c t ++ r)%string with (String c (t ++ r)%string).
    cbn [lstrip]. rewrite Hc.
    change (String c (t ++ r)%string) with (String c t ++ r)%string.
    rewrite (rstrip_app_space _ _ Hr). now apply rstrip_clean.
Qed.

(** ** The response decoder *)

Lemma r_json_parsed (r : response) (body : value) :
  r_json r = Some body -> json_result r = Parsed body.
Proof.
  unfold r_json. destruct (json_result r); intros H;
    now inversion H.
Qed.

Lemma match_error_envelope (data : value) (message exception : string) :
  match_error data = Some (message, exception)
  <-> error_envelope data message exception.
Proof.
  unfold match_error, error_envelope. split.
  - destruct data as [| | | | |l|kvs]; try discriminate.
    destruct (lookup "message" kvs) as [[]|] eqn:Hm; try discriminate.
    destruct (lookup "exception" kvs) as [[]|] eqn:He; try discriminate.
    intros H; inversion H; subst. now exists kvs.
  - intros (kvs & -> & Hm & He). now rewrite Hm, He.
Qed.

Lemma match_error_none (data : value) :
  match_error data = None
  <-> forall message exception, ~ error_envelope data message exception.
Proof.
  split.
  - intros H m e He. apply match_error_envelope in He. congruence.
  - intros H. destruct (match_error data) as [[m e]|] eqn:E; [|reflexivity].
    apply match_error_envelope in E. now apply H in E.
Qed.

Lemma match_data_envelope (data payload : value) :
  match_data data = Some payload <-> success_envelope data payload.
Proof.
  unfold match_data, success_envelope. split.
  - destruct data; try discriminate. intros H. now eexists.
  - now intros (kvs & -> & H).
Qed.


(** Validation is the identity on the values of the expected shape and a
    [ValidationError] on all others. *)
Lemma validate_python_decides (T : shape) (v : value) :
  (conforms T v /\ validate_python T v = Ok v) \/
  (~ conforms T v /\ validate_python T v = Raise ValidationError).
Proof.
  revert v; induction T as [|item IH]; intros v.
  - destruct v; cbn; (now left) || (right; split; [tauto | reflexivity]).
  - destruct v as [| | | | |l|kvs]; cbn [conforms validate_python];
      try (right; split; [tauto | reflexivity]).
    assert (Hl : (Forall (conforms item) l /\
                  map_result (validate_python item) l = Ok l) \/
                 (~ Forall (conforms item) l /\
                  map_result (validate_python item) l = Raise ValidationError)).
    { induction l as [|x l IHl]; cbn [map_result].
      - left. split; [constructor | reflexivity].
      - destruct (IH x) as [[Hx Ex]|[Hx Ex]]; rewrite Ex; cbn [bind].
        + destruct IHl as [[Hl El]|[Hl El]]; rewrite El; cbn [bind].
          * left. split; [now constructor | reflexivity].
          * right. split; [|reflexivity].
            intros H; inversion H; subst. now apply Hl.
        + right. split; [|reflexivity].
          intros H; inversion H; subst. now apply Hx. }
    destruct Hl as [[Hl El]|[Hl El]]; rewrite El; cbn [bind];
      [left | right]; now split.
Qed.

Lemma validate_python_conforms (T : shape) (v : value) :
  conforms T v -> validate_python T v = Ok v.
Proof. destruct (validate_python_decides T v) as [[_ E]|[N _]]; tauto. Qed.

Lemma validate_python_rejects (T : shape) (v : value) :
  ~ conforms T v -> validate_python T v = Raise ValidationError.
Proof. destruct (validate_python_decides T v) as [[C _]|[_ E]]; tauto. Qed.

(** C5, as amended.  A response whose parsed body is an object with a
    [data] field and which is not an error envelope (a textual [message]
    together with a textual [exception]) decodes to the data itself when
    the data has the expected shape, and fails with a [ValidationError]
    when it has not. *)
Theorem decode_success_envelope
    (py_str : value -> string) (r : response) (body payload : value)
    (T : shape) :
  r_json r = Some body ->
  success_envelope body payload ->
  (forall message exception, ~ error_envelope body message exception) ->
  (conforms T payload -> process_api_response py_str r T = Ok payload) /\
  (~ conforms T payload ->
   process_api_response py_str r T = Raise ValidationError).
Proof.
  intros Hj Hd He. unfold process_api_response.
  rewrite (r_json_parsed _ _ Hj).
  apply match_error_none in He. apply match_data_envelope in Hd.
  rewrite He, Hd. split.
  - apply validate_python_conforms.
  - apply validate_python_rejects.
Qed.

Lemma decode_success_envelope_witness :
  process_api_response sample_str
    (json_response (VDict [("data", VList [VDict []; VDict []])]))
    (TList TDict) = Ok (VList [VDict []; VDict []]) /\
  process_api_response sample_str
    (json_response (VDict [("data", VList [VDict []; VStr "x"])]))
    (TList TDict) = Raise ValidationError.
Proof.
  split.
  - apply (fun a b c =>
             proj1 (decode_success_envelope sample_str
                      (json_response
                         (VDict [("data", VList [VDict []; VDict []])]))
                      (VDict [("data", VList [VDict []; VDict []])])
                      (VList [VDict []; VDict []]) (TList TDict) a b c)).
    + reflexivity.
    + eexists. split; reflexivity.
    + intros m e (kvs & Hk & Hm & _). inversion Hk; subst. discriminate.
    + cbn. repeat constructor.
  - apply (fun a b c =>
             proj2 (decode_success_envelope sample_str
                      (json_response
                         (VDict [("data", VList [VDict []; VStr "x"])]))
                      (VDict [("data", VList [VDict []; VStr "x"])])
                      (VList [VDict []; VStr "x"]) (TList TDict) a b c)).
    + reflexivity.
    + eexists. split; reflexivity.
    + intros m e (kvs & Hk & Hm & _). inversion Hk; subst. discriminate.
    + cbn. intros H. inversion H as [|? ? _ H2]; subst.
      inversion H2 as [|? ? Hx _]; subst. exact Hx.
Defined.

(** The claim C5 as it is written fails on an object that carries a
    [data] field next to a textual [message] and [exception]: the data has
    the expected shape and yet the decoder raises the error of the
    envelope. *)
Lemma decode_data_with_error_fields :
  r_json (json_response both_envelopes) = Some both_envelopes /\
  success_envelope both_envelopes (VDict []) /\
  conforms TDict (VDict []) /\
  process_api_response sample_str (json_response both_envelopes) TDict
  = Raise (RuntimeError "e: m") /\
  process_api_response sample_str (json_response both_envelopes) TDict
  <> Ok (VDict []).
Proof.
  split; [reflexivity|]. split; [eexists; split; reflexivity|].
  split; [exact I|]. split; [reflexivity | discriminate].
Qed.

(** C6.  A response whose parsed body is an object with a textual
    [message] m and a textual [exception] e fails with a [RuntimeError]
    (the ApiError of the specification) whose text is e, a colon and a
    space, then m. *)
Theorem decode_error_envelope
    (py_str : value -> string) (r : response) (body : value)
    (message exception : string) (T : shape) :
  r_json r = Some body ->
  error_envelope body message exception ->
  process_api_response py_str r T
  = Raise (RuntimeError (exception ++ ": " ++ message)).
Proof.
  intros Hj He. unfold process_api_response.
  rewrite (r_json_parsed _ _ Hj).
  apply match_error_envelope in He. now rewrite He.
Qed.

Lemma decode_error_envelope_witness :
  process_api_response sample_str (json_response both_envelopes) TDict
  = Raise (RuntimeError "e: m").
Proof.
  apply (decode_error_envelope sample_str _ both_envelopes "m" "e").
  - reflexivity.
  - eexists. repeat split; reflexivity.
Defined.




(** ** Which computations send what *)

Lemma read_only_ret {A : Type} (a : A) : read_only (ret a).
Proof. now intros st. Qed.

Lemma read_only_lift {A : Type} (r : result A) : read_only (lift r).
Proof. now intros st. Qed.

Lemma read_only_bind {A B : Type} (m : M A) (k : A -> M B) :
  read_only m -> (forall a, read_only (k a)) -> read_only (bindM m k).
Proof.
  intros Hm Hk st. unfold bindM. specialize (Hm st).
  destruct (m st) as [[a|e|] st']; cbn [snd] in *; [|assumption..].
  now rewrite Hk.
Qed.

Lemma read_only_log (level : Z) (fmt : string) (a : list value) :
  read_only (LOGGER_log level fmt a).
Proof.
  intros st. unfold LOGGER_log. cbn [snd].
  now destruct (log_level st <=? level)%Z.
Qed.

Lemma read_only_setup_logging (verbosity : Z) :
  read_only (setup_logging verbosity).
Proof. now intros st. Qed.

Section Frames.

Context {rt : runtime}.

Variable urljoin : string -> string -> string.
Variable py_str : value -> string.
Variable server : list request -> request -> reply.
Variable session : FireflySession.

Lemma session_get_posts url params sent :
  filter is_post (snd (session_get urljoin server session url params sent))
  = filter is_post sent.
Proof.
  unfold session_get, send. cbn [snd].
  rewrite filter_app. cbn. now rewrite app_nil_r.
Qed.

Lemma pag_items_posts fuel T depth data items sent :
  filter is_post
    (snd (pag_items urljoin py_str server fuel T session depth data items
            sent))
  = filter is_post sent.
Proof.
  revert depth data items sent; induction fuel as [|fuel IH];
    intros depth data items sent; destruct items as [|x rest];
    cbn [pag_items snd]; try reflexivity;
    (destruct (match_next data) as [next|]; [|reflexivity]);
    (destruct (depth_limit <=? depth)%nat;
     [ cbn [snd];
       destruct (link_error (base_url session) next); [reflexivity|];
       destruct overflow_sends; [apply session_get_posts | reflexivity]
     |]);
    (destruct (link_error (base_url session) next); [reflexivity|]);
    [reflexivity|].
  pose proof (session_get_posts next [] sent) as Hg.
  destruct (session_get urljoin server session next [] sent)
    as [[r|e|] sent']; cbn [snd] in *; try assumption.
  destruct (pag_open py_str T r) as [[data' items']|e|];
    cbn [snd]; try assumption.
  now rewrite IH.
Qed.

Lemma pag_next_posts fuel T g sent :
  filter is_post
    (snd (pag_next urljoin py_str server fuel T session g sent))
  = filter is_post sent.
Proof.
  destruct g as [depth r|depth data items|]; cbn [pag_next snd];
    try reflexivity.
  - destruct (pag_open py_str T r) as [[data items]|e|];
      cbn [snd]; try reflexivity.
    apply pag_items_posts.
  - apply pag_items_posts.
Qed.

Lemma scan_items_posts fuel pages transactions sent :
  filter is_post
    (snd (scan_items urljoin py_str server fuel session pages
            transactions sent))
  = filter is_post sent.
Proof.
  revert pages transactions sent; induction fuel as [|fuel IH];
    intros pages transactions sent; destruct transactions as [|t rest];
    cbn [scan_items snd]; try reflexivity.
  pose proof (pag_next_posts fuel TDict pages sent) as Hp.
  destruct (pag_next urljoin py_str server fuel TDict session pages sent)
    as [[[page| |e|] pages'] sent']; cbn [snd] in *; try assumption.
  destruct (page_transactions page) as [transactions'|e|];
    cbn [snd]; try assumption.
  now rewrite IH.
Qed.

Lemma scan_next_posts fuel account g sent :
  filter is_post
    (snd (scan_next urljoin py_str server fuel session account g sent))
  = filter is_post sent.
Proof.
  destruct g as [|pages transactions|]; cbn [scan_next snd];
    try reflexivity.
  - pose proof (session_get_posts "/api/v1/search/transactions"
                  [("query", search_query account)] sent) as Hg.
    destruct (session_get urljoin server session
                "/api/v1/search/transactions"
                [("query", search_query account)] sent)
      as [[r|e|] sent']; cbn [snd] in *; try assumption.
    now rewrite scan_items_posts.
  - apply scan_items_posts.
Qed.

Lemma read_only_scan_body transaction missing_rules :
  read_only (scan_body transaction missing_rules).
Proof.
  unfold scan_body.
  repeat first
    [ apply read_only_bind; [|intros ?]
    | apply read_only_lift
    | apply read_only_log
    | apply read_only_ret
    | match goal with
      | |- read_only (match ?x with _ => _ end) => destruct x
      end ].
Qed.

Lemma read_only_scan_loop fuel account g missing_rules :
  read_only
    (scan_loop urljoin py_str server fuel session account g missing_rules).
Proof.
  revert g missing_rules; induction fuel as [|fuel IH];
    intros g missing_rules st; cbn [scan_loop snd]; [reflexivity|].
  pose proof (scan_next_posts fuel account g (reqs st)) as Hn.
  destruct (scan_next urljoin py_str server fuel session account g (reqs st))
    as [[[t| |e|] g'] sent]; cbn [snd reqs] in *; try assumption.
  pose proof (read_only_scan_body t missing_rules
                (mkState sent (log_level st) (logs st))) as Hb.
  destruct (scan_body t missing_rules
              (mkState sent (log_level st) (logs st)))
    as [[missing_rules'|e|] st']; cbn [snd reqs] in *;
    [rewrite IH|..]; congruence.
Qed.

Lemma read_only_authenticate :
  read_only (authenticate urljoin py_str server session).
Proof.
  unfold authenticate.
  apply read_only_bind.
  - intros st. unfold on_reqs.
    pose proof (session_get_posts "/api/v1/about/user" [] (reqs st)) as Hg.
    destruct (session_get urljoin server session "/api/v1/about/user" []
                (reqs st)) as [r sent]; cbn [snd reqs] in *. exact Hg.
  - intros r.
    repeat first
      [ apply read_only_bind; [|intros ?]
      | apply read_only_lift
      | apply read_only_log ].
Qed.

End Frames.

Lemma no_post_all_get (l : list request) :
  filter is_post l = [] -> Forall (fun q => rq_method q = GET) l.
Proof.
  induction l as [|q l IH]; intros H; [constructor|].
  cbn [filter] in H. unfold is_post at 1 in H.
  destruct (rq_method q) eqn:E; [|discriminate].
  constructor; [exact E | now apply IH].
Qed.

(** C4.  With the dry-run flag set, a run sends no POST, whatever the
    ledger answers and however many beneficiaries the scan finds: the
    POSTs on record after the run are those on record before it, and a
    run from the initial state has sent GETs only. *)
Theorem dry_run_sends_no_post {rt : runtime}
    (urljoin : string -> string -> string) (py_str : value -> string)
    (server : list request -> request -> reply)
    (set_iter : list string -> list string)
    (fuel : nat) (verbose : Z) (url access_token group account : string) :
  let run :=
    main urljoin py_str server set_iter fuel verbose url access_token group
      true account in
  (forall st,
     filter is_post (reqs (snd (run st))) = filter is_post (reqs st)) /\
  filter is_post (reqs (snd (run init))) = [] /\
  Forall (fun q => rq_method q = GET) (reqs (snd (run init))).
Proof.
  intros run.
  assert (Hro : read_only run).
  { subst run. unfold main.
    apply read_only_bind; [apply read_only_setup_logging | intros _].
    apply read_only_bind; [apply read_only_authenticate | intros _].
    apply read_only_bind; [apply read_only_scan_loop | intros missing_rules].
    destruct missing_rules as [|name rest]; [apply read_only_log|].
    apply read_only_bind; [apply read_only_log | intros _].
    apply read_only_bind; [apply read_only_log | intros _].
    apply read_only_ret. }
  split; [exact Hro|].
  assert (H0 : filter is_post (reqs (snd (run init))) = [])
    by (now rewrite Hro).
  split; [exact H0 | now apply no_post_all_get].
Qed.

(** ** The body of the scan *)

Lemma is_error_debug (fmt : string) (a : list value) :
  is_error (mkRecord DEBUG fmt a) = false.
Proof. reflexivity. Qed.

(** Either the transaction is as the data model has it and the body goes
    through, or it is not and the body raises a lookup or a type error. *)
Lemma scan_body_cases (t : value) (missing_rules : list string) (st : state) :
  (well_formed t /\
   exists st',
     scan_body t missing_rules st
     = (Ok (add_beneficiary missing_rules t), st') /\
     reqs st' = reqs st /\ log_level st' = log_level st /\
     ((log_level st <= ERROR)%Z ->
      filter is_error (logs st')
      = filter is_error (logs st) ++ no_match_record t)) \/
  (~ well_formed t /\
   exists e st',
     scan_body t missing_rules st = (Raise e, st') /\
     lookup_or_type_error e /\ reqs st' = reqs st /\
     ((exists kvs, t = VDict kvs /\
                   lookup "transaction_journal_id" kvs = None) ->
      e = KeyError "transaction_journal_id") /\
     ((exists kvs id, t = VDict kvs /\
                      lookup "transaction_journal_id" kvs = Some id /\
                      lookup "notes" kvs = None) ->
      e = KeyError "notes")).
Proof.
  unfold scan_body, well_formed, add_beneficiary, no_match_record,
    beneficiary_of, bindM, lift, ret, LOGGER_log.
  destruct t as [| | | | | |kvs];
    try (right; split;
         [ intros (id & notes & H & _); discriminate
         | exists TypeError, st; repeat split;
           intros (? & H); destruct H as [? H]; discriminate || (destruct H; discriminate) ]).
  cbn [subscript].
  destruct (lookup "transaction_journal_id" kvs) as [id|] eqn:Hid.
  2:{ right. split; [intros (id & notes & H & _); discriminate|].
      exists (KeyError "transaction_journal_id"), st.
      repeat split. intros (k & i & Hk & Hi & _).
      inversion Hk; subst. congruence. }
  destruct (lookup "notes" kvs) as [notes|] eqn:Hn.
  2:{ right. split; [intros (i & notes & _ & H); discriminate|].
      exists (KeyError "notes"), st. repeat split.
      intros (k & Hk & Hi). inversion Hk; subst. congruence. }
  destruct notes as [| | | |s| |];
    try (right; split;
         [ intros (i & notes & _ & H); discriminate
         | eexists TypeError, _; split; [reflexivity|];
           split; [exact I|]; split;
           [ now destruct (log_level st <=? DEBUG)%Z |];
           split;
           [ intros (k & Hk & Hi); inversion Hk; subst; congruence
           | intros (k & i & Hk & _ & Hi); inversion Hk; subst; congruence ] ]).
  left. split; [now exists id, s|].
  cbn [search_notes]. destruct (re_search s) as [group1|]; cbn [option_map].
  - eexists. split; [reflexivity|].
    destruct (log_level st <=? DEBUG)%Z; cbn [reqs log_level logs];
      repeat split; intros _; rewrite ?filter_app; cbn [filter];
      rewrite ?is_error_debug, ?app_nil_r; reflexivity.
  - eexists. split; [reflexivity|].
    destruct (log_level st <=? DEBUG)%Z eqn:Hd; cbn [reqs log_level logs].
    + replace (log_level st <=? ERROR)%Z with true
        by (symmetry; apply Z.leb_le; apply Z.leb_le in Hd;
            unfold DEBUG, ERROR in *; lia).
      cbn [reqs log_level logs]. repeat split. intros _.
      rewrite !filter_app. cbn [filter].
      rewrite is_error_debug, app_nil_r. reflexivity.
    + destruct (log_level st <=? ERROR)%Z eqn:He;
        cbn [reqs log_level logs]; repeat split; intros Hle.
      * rewrite filter_app. reflexivity.
      * apply Z.leb_le in Hle. congruence.
Qed.

(** ** The loop over the transactions against the generator *)

Section Scan.

Context {rt : runtime}.

Variable urljoin : string -> string -> string.
Variable py_str : value -> string.
Variable server : list request -> request -> reply.
Variable session : FireflySession.
Variable account : string.

Local Abbreviation scan_loop' := (scan_loop urljoin py_str server).
Local Abbreviation scan_drain' := (scan_drain urljoin py_str server).
Local Abbreviation scan_next' := (scan_next urljoin py_str server).

(** When every transaction the generator yields is well formed, the loop
    ends as the generator ends, with the names of all transactions and
    one error record per transaction whose notes do not match. *)
Lemma scan_loop_well_formed fuel :
  forall g missing_rules st transactions res sent,
    scan_drain' fuel session account g (reqs st)
    = (transactions, res, sent) ->
    Forall well_formed transactions ->
    exists st',
      scan_loop' fuel session account g missing_rules st
      = (loop_result res (collect transactions missing_rules), st') /\
      reqs st' = sent /\ log_level st' = log_level st /\
      ((log_level st <= ERROR)%Z ->
       filter is_error (logs st')
       = filter is_error (logs st) ++ flat_map no_match_record transactions).
Proof.
  induction fuel as [|fuel IH]; intros g missing_rules st txs res sent Hd Hwf;
    cbn [scan_drain scan_loop] in *.
  - inversion Hd; subst. exists st. cbn. rewrite app_nil_r. now repeat split.
  - destruct (scan_next' fuel session account g (reqs st))
      as [[[t| |e|] g'] sent1].
    + destruct (scan_drain' fuel session account g' sent1)
        as [[l r] s] eqn:Hrest.
      inversion Hd; subst. inversion Hwf as [|? ? Ht Hl]; subst.
      destruct (scan_body_cases t missing_rules
                  (mkState sent1 (log_level st) (logs st)))
        as [(_ & st1 & Hb & Hr & Hlv & Hlog)|(Hn & _)]; [|contradiction].
      rewrite Hb. cbn [reqs log_level logs] in *.
      rewrite <- Hr in Hrest.
      destruct (IH g' (add_beneficiary missing_rules t) st1 l res sent
                  Hrest Hl) as (st' & Hs & Hr' & Hlv' & Hlog').
      exists st'. split; [exact Hs|]. split; [exact Hr'|].
      split; [congruence|]. intros Hle. cbn [flat_map].
      rewrite Hlog' by (rewrite Hlv; exact Hle).
      rewrite (Hlog Hle). now rewrite app_assoc.
    + inversion Hd; subst. eexists. split; [reflexivity|].
      cbn. rewrite app_nil_r. now repeat split.
    + inversion Hd; subst. eexists. split; [reflexivity|].
      cbn. rewrite app_nil_r. now repeat split.
    + inversion Hd; subst. eexists. split; [reflexivity|].
      cbn. rewrite app_nil_r. now repeat split.
Qed.

(** When one of the transactions the generator yields is not well
    formed, the loop raises a lookup or a type error. *)
Lemma scan_loop_malformed fuel :
  forall g missing_rules st transactions res sent,
    scan_drain' fuel session account g (reqs st)
    = (transactions, res, sent) ->
    Exists (fun t => ~ well_formed t) transactions ->
    exists e st',
      scan_loop' fuel session account g missing_rules st = (Raise e, st') /\
      lookup_or_type_error e.
Proof.
  induction fuel as [|fuel IH]; intros g missing_rules st txs res sent Hd Hex;
    cbn [scan_drain scan_loop] in *.
  - inversion Hd; subst. inversion Hex.
  - destruct (scan_next' fuel session account g (reqs st))
      as [[[t| |e|] g'] sent1];
      try (inversion Hd; subst; inversion Hex; fail).
    destruct (scan_drain' fuel session account g' sent1)
      as [[l r] s] eqn:Hrest.
    inversion Hd; subst.
    destruct (scan_body_cases t missing_rules
                (mkState sent1 (log_level st) (logs st)))
      as [(Hw & st1 & Hb & Hr & _)|(_ & e & st1 & Hb & He & _)];
      rewrite Hb.
    + inversion Hex as [? ? Ht|? ? Hl]; subst; [contradiction|].
      cbn [reqs] in Hr. rewrite <- Hr in Hrest.
      exact (IH g' _ st1 l res sent Hrest Hl).
    + now exists e, st1.
Qed.

(** A loop that ends well has seen well-formed transactions only, and
    the generator has ended well. *)
Lemma scan_loop_ok_inv fuel :
  forall g missing_rules st transactions res sent missing_rules' st',
    scan_drain' fuel session account g (reqs st)
    = (transactions, res, sent) ->
    scan_loop' fuel session account g missing_rules st
    = (Ok missing_rules', st') ->
    Forall well_formed transactions /\ res = Ok tt.
Proof.
  induction fuel as [|fuel IH];
    intros g missing_rules st txs res sent m' st' Hd Hs;
    cbn [scan_drain scan_loop] in *; [discriminate|].
  destruct (scan_next' fuel session account g (reqs st))
    as [[[t| |e|] g'] sent1]; try discriminate.
  - destruct (scan_drain' fuel session account g' sent1)
      as [[l r] s] eqn:Hrest.
    inversion Hd; subst.
    destruct (scan_body_cases t missing_rules
                (mkState sent1 (log_level st) (logs st)))
      as [(Hw & st1 & Hb & Hr & _)|(_ & e & st1 & Hb & _)];
      rewrite Hb in Hs; [|discriminate].
    cbn [reqs] in Hr. rewrite <- Hr in Hrest.
    destruct (IH g' _ st1 l res sent m' st' Hrest Hs) as [Hl Hres].
    split; [now constructor | exact Hres].
  - inversion Hd; subst. split; [constructor | reflexivity].
Qed.

End Scan.

(** ** The set of names *)

Lemma set_add_in (name x : string) (s : list string) :
  In x (set_add name s) <-> x = name \/ In x s.
Proof.
  unfold set_add. destruct (in_dec string_dec name s) as [Hin|Hn].
  - split; [now right | intros [->|H]; assumption].
  - rewrite in_app_iff. cbn. intuition congruence.
Qed.

Lemma set_add_nodup (name : string) (s : list string) :
  NoDup s -> NoDup (set_add name s).
Proof.
  intros Hs. unfold set_add.
  destruct (in_dec string_dec name s) as [Hin|Hn]; [exact Hs|].
  apply NoDup_app; [exact Hs | repeat constructor; intros [] |].
  intros x Hx [<-|[]]. contradiction.
Qed.

Lemma collect_nodup (transactions : list value) (s : list string) :
  NoDup s -> NoDup (collect transactions s).
Proof.
  revert s; induction transactions as [|t l IH]; intros s Hs; cbn;
    [exact Hs|].
  apply IH. unfold add_beneficiary.
  destruct (beneficiary_of t); [now apply set_add_nodup | exact Hs].
Qed.

Lemma collect_in (transactions : list value) (s : list string) (name : string) :
  In name (collect transactions s) <->
  In name s \/
  exists t, In t transactions /\ beneficiary_of t = Some name.
Proof.
  revert s; induction transactions as [|t l IH]; intros s; cbn.
  - split; [now left | intros [H|(t & [] & _)]; exact H].
  - rewrite IH. unfold add_beneficiary.
    destruct (beneficiary_of t) as [n|] eqn:Hb.
    + rewrite set_add_in. split.
      * intros [[->|H]|(t' & Ht' & H)];
          [right; exists t; now split; [left|] | now left
          | right; exists t'; now split; [right|]].
      * intros [H|(t' & [<-|Ht'] & H)];
          [left; now right | left; left; congruence
          | right; now exists t'].
    + split.
      * intros [H|(t' & Ht' & H)];
          [now left | right; exists t'; now split; [right|]].
      * intros [H|(t' & [<-|Ht'] & H)];
          [now left | congruence | right; now exists t'].
Qed.

Lemma setup_logging_level (verbosity : Z) (st : state) :
  (log_level (snd (setup_logging verbosity st)) <= ERROR)%Z.
Proof.
  unfold setup_logging, ERROR, WARNING, INFO, DEBUG. cbn [snd log_level].
  destruct verbosity as [|[[]|[]|]|]; lia.
Qed.

(** C8.  A transaction whose notes do not match the marker is skipped:
    as long as the transactions the generator yields carry a journal id
    and textual notes, the loop ends as the generator ends, whatever the
    notes say; every transaction without a match leaves one error record
    (the root logger is never set above ERROR) and no name, and the names
    of all others are collected. *)
Theorem non_matching_notes_are_skipped {rt : runtime}
    (urljoin : string -> string -> string) (py_str : value -> string)
    (server : list request -> request -> reply)
    (fuel : nat) (session : FireflySession) (account : string)
    (g : scan_gen) (missing_rules : list string) (st : state)
    (transactions : list value) (res : result unit) (sent : list request) :
  scan_drain urljoin py_str server fuel session account g (reqs st)
  = (transactions, res, sent) ->
  Forall well_formed transactions ->
  (log_level st <= ERROR)%Z ->
  (forall verbosity st0,
     (log_level (snd (setup_logging verbosity st0)) <= ERROR)%Z) /\
  exists st',
    scan_loop urljoin py_str server fuel session account g missing_rules st
    = (loop_result res (collect transactions missing_rules), st') /\
    filter is_error (logs st')
    = filter is_error (logs st) ++ flat_map no_match_record transactions /\
    (forall t id notes,
       In t transactions ->
       subscript t "transaction_journal_id" = Ok id ->
       subscript t "notes" = Ok (VStr notes) ->
       re_search notes = None ->
       In (mkRecord ERROR "Failed to match note of transaction %s: %s"
             [id; VStr notes]) (logs st')) /\
    (forall name,
       In name (collect transactions missing_rules) <->
       In name missing_rules \/
       exists t notes group1,
         In t transactions /\ subscript t "notes" = Ok (VStr notes) /\
         re_search notes = Some group1 /\ name = strip group1).
Proof.
  intros Hd Hwf Hle. split; [apply setup_logging_level|].
  destruct (scan_loop_well_formed urljoin py_str server session account fuel
              g missing_rules st transactions res sent Hd Hwf)
    as (st' & Hs & _ & _ & Hlog).
  specialize (Hlog Hle).
  exists st'. split; [exact Hs|]. split; [exact Hlog|]. split.
  - intros t id notes Hin Hid Hn Hre.
    assert (Hrec : In (mkRecord ERROR
                         "Failed to match note of transaction %s: %s"
                         [id; VStr notes])
                     (filter is_error (logs st'))).
    { rewrite Hlog. apply in_or_app. right. apply in_flat_map.
      exists t. split; [exact Hin|].
      unfold no_match_record, beneficiary_of. rewrite Hid, Hn, Hre.
      now left. }
    now apply filter_In in Hrec.
  - intros name. rewrite collect_in. split.
    + intros [H|(t & Hin & Hb)]; [now left | right].
      unfold beneficiary_of in Hb.
      destruct (subscript t "notes") as [[| | | |notes| |]|e|] eqn:Hn;
        try discriminate.
      destruct (re_search notes) as [group1|] eqn:Hre; [|discriminate].
      exists t, notes, group1. cbn in Hb. now inversion Hb.
    + intros [H|(t & notes & group1 & Hin & Hn & Hre & ->)];
        [now left | right].
      exists t. split; [exact Hin|].
      unfold beneficiary_of. now rewrite Hn, Hre.
Qed.

(** ** The rule provisioner *)

Lemma LOGGER_log_run (level : Z) (fmt : string) (a : list value) (st : state) :
  exists st',
    LOGGER_log level fmt a st = (Ok tt, st') /\
    reqs st' = reqs st /\ log_level st' = log_level st.
Proof.
  unfold LOGGER_log. eexists. split; [reflexivity|].
  now destruct (log_level st <=? level)%Z.
Qed.

Section Provisioner.

Context {rt : runtime}.

Variable urljoin : string -> string -> string.
Variable py_str : value -> string.
Variable server : list request -> request -> reply.
Variable session : FireflySession.
Variables account group : string.

Local Abbreviation creation_request' :=
  (creation_request urljoin session account group).
Local Abbreviation trigger_request' :=
  (trigger_request urljoin py_str session).

(** The provisioner sends the creation request first, whatever happens
    afterwards. *)
Lemma create_fixing_rule_first beneficiary st :
  exists more,
    reqs (snd (create_fixing_rule urljoin py_str server session account
                 beneficiary group st))
    = reqs st ++ creation_request' beneficiary :: more /\
    Forall (fun q => creation_title q = None) more.
Proof.
  unfold create_fixing_rule, bindM at 1.
  destruct (LOGGER_log_run DEBUG "Creating rule %s in group %s"
              [VStr beneficiary; VStr group] st) as (st1 & -> & Hr & _).
  unfold bindM at 1, on_reqs at 1, session_post at 1, send at 1.
  rewrite Hr. fold (creation_request' beneficiary).
  destruct (server (reqs st) (creation_request' beneficiary)) as [r|];
    [|exists []; cbn [snd reqs]; split; [reflexivity | constructor]].
  unfold bindM at 1, lift at 1.
  destruct (process_api_response py_str r TDict) as [rule|e|];
    [|exists []; cbn [snd reqs]; split; [reflexivity | constructor]..].
  unfold bindM at 1, lift at 1.
  destruct (subscript rule "id") as [rule_id|e|];
    [|exists []; cbn [snd reqs]; split; [reflexivity | constructor]..].
  unfold bindM at 1.
  match goal with
  | |- context [LOGGER_log ?l ?f ?a ?s] =>
      destruct (LOGGER_log_run l f a s) as (st2 & -> & Hr2 & _)
  end.
  cbn [reqs] in Hr2.
  unfold bindM at 1, on_reqs at 1, session_post at 1, send at 1.
  rewrite Hr2. fold (trigger_request' rule_id).
  exists [trigger_request' rule_id]. split; [|repeat constructor].
  destruct (server _ (trigger_request' rule_id)) as [r'|];
    [|cbn [snd reqs]; now rewrite <- app_assoc].
  unfold bindM, lift, ret.
  destruct (raise_for_status r'); cbn [snd reqs]; now rewrite <- app_assoc.
Qed.

End Provisioner.

(** C9, as amended.  The provisioner POSTs the rule (title, group, strict
    matching, the [store-journal] trigger, the three conditions and the one
    action) and, once the answer decodes to an object with an [id], POSTs
    an empty JSON object to the trigger endpoint of that rule right away.
    Of the second answer only the status is looked at: an [HTTPError] for
    a 4xx or 5xx status, and the created rule is returned for any other. *)
Theorem create_fixing_rule_requests
    (urljoin : string -> string -> string) (py_str : value -> string)
    (server : list request -> request -> reply)
    (session : FireflySession) (account beneficiary group : string)
    (st : state) :
  let create := creation_request urljoin session account group beneficiary in
  let run :=
    create_fixing_rule urljoin py_str server session account beneficiary
      group st in
  create
  = mkRequest POST (urljoin (base_url session) "/api/v1/rules")
      ("Bearer " ++ api_token session) []
      (Some
         (VDict
            [("title", VStr beneficiary);
             ("rule_group_title", VStr group);
             ("strict", VBool true);
             ("trigger", VStr "store-journal");
             ("triggers",
              VList
                [VDict [("type", VStr "transaction_type");
                        ("value", VStr "withdrawal")];
                 VDict [("type", VStr "to_account_is");
                        ("value", VStr account)];
                 VDict [("type", VStr "notes_contains");
                        ("value",
                         VStr ("Original account name: " ++ beneficiary))]]);
             ("actions",
              VList
                [VDict [("type", VStr "set_destination_account");
                        ("value", VStr beneficiary)]])])) /\
  (exists more, reqs (snd run) = reqs st ++ create :: more) /\
  forall r rule rule_id,
    server (reqs st) create = Reply r ->
    process_api_response py_str r TDict = Ok rule ->
    subscript rule "id" = Ok rule_id ->
    let trigger :=
      mkRequest POST
        (urljoin (base_url session)
           ("/api/v1/rules/" ++ py_str rule_id ++ "/trigger")%string)
        ("Bearer " ++ api_token session) [] (Some (VDict [])) in
    reqs (snd run) = reqs st ++ [create; trigger] /\
    (server (reqs st ++ [create]) trigger = Failure ->
     fst run = Raise RequestException) /\
    (forall r',
       server (reqs st ++ [create]) trigger = Reply r' ->
       fst run
       = if ((400 <=? status_code r') && (status_code r' <? 600))%Z
         then Raise (HTTPError (status_code r'))
         else Ok rule).
Proof.
  intros create run. split; [reflexivity|]. split.
  - destruct (create_fixing_rule_first urljoin py_str server session account
                group beneficiary st) as (more & H & _).
    now exists more.
  - intros r rule rule_id Hr Hrule Hid trigger.
    assert (Hrun : exists st',
               run = (match server (reqs st ++ [create]) trigger with
                      | Reply r' => _ <- raise_for_status r' ;; Ok rule
                      | Failure => Raise RequestException
                      end, st') /\
               reqs st' = reqs st ++ [create; trigger]).
    { subst run. unfold create_fixing_rule, bindM at 1.
      destruct (LOGGER_log_run DEBUG "Creating rule %s in group %s"
                  [VStr beneficiary; VStr group] st) as (st1 & -> & Hr1 & _).
      unfold bindM at 1, on_reqs at 1, session_post at 1, send at 1.
      rewrite Hr1.
      fold (creation_request urljoin session account group beneficiary).
      fold create. rewrite Hr.
      unfold bindM at 1, lift at 1. rewrite Hrule.
      unfold bindM at 1, lift at 1. rewrite Hid.
      unfold bindM at 1.
      match goal with
      | |- context [LOGGER_log ?l ?f ?a ?s] =>
          destruct (LOGGER_log_run l f a s) as (st2 & -> & Hr2 & _)
      end.
      cbn [reqs] in Hr2.
      unfold bindM at 1, on_reqs at 1, session_post at 1, send at 1.
      rewrite Hr2. unfold trigger_url. fold trigger.
      destruct (server (reqs st ++ [create]) trigger) as [r'|].
      - unfold bindM, lift, ret. eexists.
        destruct (raise_for_status r') as [[]|e|]; cbn [bind];
          (split; [reflexivity|]); cbn [reqs];
          now rewrite <- app_assoc.
      - eexists. split; [reflexivity|]. cbn [reqs].
        now rewrite <- app_assoc. }
    destruct Hrun as (st' & -> & Hst'). cbn [fst snd].
    split; [exact Hst'|]. split.
    + now intros ->.
    + intros r' ->. unfold raise_for_status.
      now destruct ((400 <=? status_code r') && (status_code r' <? 600))%Z.
Qed.

(** ** The rules a run creates *)

Lemma creation_titles_app (a b : list request) :
  creation_titles (a ++ b) = creation_titles a ++ creation_titles b.
Proof. apply flat_map_app. Qed.

Lemma creation_titles_cons (q : request) (l : list request) :
  creation_titles (q :: l) = creation_titles [q] ++ creation_titles l.
Proof. exact (creation_titles_app [q] l). Qed.

Lemma creation_titles_posts (l : list request) :
  creation_titles l = creation_titles (filter is_post l).
Proof.
  induction l as [|q l IH]; [reflexivity|].
  cbn [filter]. unfold is_post at 1.
  destruct q as [[] u a p b]; cbn [rq_method].
  - exact IH.
  - rewrite creation_titles_cons, IH. symmetry. apply creation_titles_cons.
Qed.

Lemma creation_titles_none (l : list request) :
  Forall (fun q => creation_title q = None) l -> creation_titles l = [].
Proof.
  induction 1 as [|q l Hq _ IH]; [reflexivity|].
  unfold creation_titles in *. cbn [flat_map]. now rewrite Hq, IH.
Qed.

Section Provision.

Context {rt : runtime}.

Variable urljoin : string -> string -> string.
Variable py_str : value -> string.
Variable server : list request -> request -> reply.
Variable session : FireflySession.
Variables account group : string.

Lemma create_fixing_rule_titles beneficiary st :
  creation_titles
    (reqs (snd (create_fixing_rule urljoin py_str server session account
                  beneficiary group st)))
  = creation_titles (reqs st) ++ [beneficiary].
Proof.
  destruct (create_fixing_rule_first urljoin py_str server session account
              group beneficiary st) as (more & -> & Hmore).
  rewrite creation_titles_app. f_equal.
  rewrite creation_titles_cons.
  now rewrite (creation_titles_none more Hmore).
Qed.

(** The loop over the beneficiaries creates their rules in order, up
    to the point where it stops. *)
Lemma provision_titles order :
  forall st,
  exists done rest out st',
    provision urljoin py_str server session account group order st
    = (out, st') /\
    order = done ++ rest /\
    creation_titles (reqs st') = creation_titles (reqs st) ++ done /\
    (out = Ok tt -> rest = []).
Proof.
  induction order as [|b order IH]; intros st.
  - exists [], [], (Ok tt), st. cbn. rewrite app_nil_r. now repeat split.
  - cbn [provision]. unfold bindM at 1.
    pose proof (create_fixing_rule_titles b st) as Hc.
    destruct (create_fixing_rule urljoin py_str server session account b
                group st) as [[rule|e|] st1]; cbn [snd] in Hc;
      try (exists [b], order; eexists _, _; split; [reflexivity|];
           repeat split; [exact Hc | discriminate]).
    unfold bindM at 1, lift at 1.
    destruct (subscript rule "attributes") as [a|e|];
      try (exists [b], order; eexists _, _; split; [reflexivity|];
           repeat split; [exact Hc | discriminate]).
    unfold bindM at 1, lift at 1.
    destruct (subscript a "title") as [title|e|];
      try (exists [b], order; eexists _, _; split; [reflexivity|];
           repeat split; [exact Hc | discriminate]).
    unfold bindM at 1, lift at 1.
    destruct (subscript rule "id") as [rule_id|e|];
      try (exists [b], order; eexists _, _; split; [reflexivity|];
           repeat split; [exact Hc | discriminate]).
    unfold bindM at 1.
    match goal with
    | |- context [LOGGER_log ?l ?f ?a ?s] =>
        destruct (LOGGER_log_run l f a s) as (st2 & -> & Hr2 & _)
    end.
    cbv beta iota.
    destruct (IH st2) as (done & rest & out & st' & -> & -> & Ht & Hok).
    exists (b :: done), rest, out, st'. split; [reflexivity|].
    split; [reflexivity|]. split; [|exact Hok].
    rewrite Ht, Hr2, Hc. now rewrite <- app_assoc.
Qed.

Lemma authenticate_run st :
  exists res st',
    authenticate urljoin py_str server session st = (res, st') /\
    reqs st'
    = reqs st ++ [get_request urljoin session "/api/v1/about/user"] /\
    log_level st' = log_level st.
Proof.
  unfold authenticate, bindM at 1, on_reqs, session_get, send.
  fold (get_request urljoin session "/api/v1/about/user").
  destruct (server (reqs st) _) as [r|];
    [|eexists _, _; split; [reflexivity|]; now split].
  unfold bindM at 1, lift at 1.
  destruct (process_api_response py_str r TDict) as [user|e|];
    [|eexists _, _; split; [reflexivity|]; now split..].
  unfold bindM at 1, lift at 1.
  destruct (subscript user "attributes") as [a|e|];
    [|eexists _, _; split; [reflexivity|]; now split..].
  unfold bindM at 1, lift at 1.
  destruct (subscript a "email") as [email|e|];
    [|eexists _, _; split; [reflexivity|]; now split..].
  match goal with
  | |- context [LOGGER_log ?l ?f ?a ?s] =>
      destruct (LOGGER_log_run l f a s) as (st2 & -> & Hr2 & Hl2)
  end.
  cbn [reqs log_level] in *. now exists (Ok tt), st2.
Qed.

End Provision.

Section Run.

Context {rt : runtime}.

Variable urljoin : string -> string -> string.
Variable py_str : value -> string.
Variable server : list request -> request -> reply.
Variable set_iter : list string -> list string.
Hypothesis set_iter_perm : forall s, Permutation (set_iter s) s.

Variable fuel : nat.
Variable verbose : Z.
Variables url access_token group account : string.

Let session := mkSession url access_token.

(** The rules a run creates are those of the names of the transactions
    the scan has seen, in the order the set is iterated, up to the point
    where the run stops. *)
Lemma main_titles dry_run transactions res sent out st' :
  scan_drain urljoin py_str server fuel session account ScanStart
    [get_request urljoin session "/api/v1/about/user"]
  = (transactions, res, sent) ->
  main urljoin py_str server set_iter fuel verbose url access_token group
    dry_run account init = (out, st') ->
  exists done rest,
    set_iter (collect transactions []) = done ++ rest /\
    creation_titles (reqs st') = done /\
    (dry_run = false -> out = Ok tt -> rest = []).
Proof.
  intros Hd Hm. unfold main in Hm. unfold bindM at 1 in Hm.
  cbn [setup_logging] in Hm. cbv beta iota in Hm. fold session in Hm.
  unfold bindM at 1 in Hm.
  match type of Hm with
  | context [authenticate _ _ _ _ ?s] =>
      destruct (authenticate_run urljoin py_str server session s)
        as (ra & st1 & Ha & Hr1 & _)
  end.
  rewrite Ha in Hm. cbn [reqs] in Hr1.
  change (reqs init) with (@nil request) in Hr1. cbn [app] in Hr1.
  assert (Hearly : forall e : result unit,
             e <> Ok tt ->
             exists done rest,
               set_iter (collect transactions []) = done ++ rest /\
               creation_titles (reqs st1) = done /\
               (dry_run = false -> e = Ok tt -> rest = [])).
  { intros e He. exists [], (set_iter (collect transactions [])).
    rewrite Hr1. repeat split. intros _ H. contradiction. }
  destruct ra as [[]|e|];
    [|inversion Hm; subst; apply Hearly; discriminate..].
  clear Hearly. unfold bindM at 1 in Hm.
  unfold get_transactions_with_notes in Hm.
  pose proof (read_only_scan_loop urljoin py_str server session fuel
                account ScanStart [] st1) as Hro.
  rewrite <- Hr1 in Hd.
  destruct (scan_loop urljoin py_str server fuel session account ScanStart
              [] st1) as [rs st2] eqn:Hs.
  cbn [snd] in Hro. rewrite Hr1 in Hro. cbn in Hro.
  assert (Ht2 : creation_titles (reqs st2) = []).
  { now rewrite creation_titles_posts, Hro. }
  destruct rs as [missing_rules|e|];
    [|inversion Hm; subst;
      exists [], (set_iter (collect transactions []));
      repeat split; [exact Ht2 | discriminate]..].
  destruct (scan_loop_ok_inv urljoin py_str server session account fuel
              _ _ _ _ _ _ _ _ Hd Hs) as [Hwf Hres].
  destruct (scan_loop_well_formed urljoin py_str server session account
              fuel ScanStart [] st1 _ _ _ Hd Hwf) as (st2' & Hs' & _).
  rewrite Hs in Hs'. subst res. cbn [loop_result] in Hs'.
  inversion Hs'; subst st2'.
  match goal with H : missing_rules = _ |- _ => rename H into Hmiss end.
  rewrite <- Hmiss.
  destruct missing_rules as [|name names].
  - match type of Hm with
    | context [LOGGER_log ?l ?f ?a ?s] =>
        destruct (LOGGER_log_run l f a s) as (st3 & Hl & Hr3 & _)
    end.
    rewrite Hl in Hm. inversion Hm; subst.
    exists [], []. split; [|split].
    + apply Permutation_nil. apply Permutation_sym, set_iter_perm.
    + now rewrite Hr3.
    + reflexivity.
  - unfold bindM at 1 in Hm.
    match type of Hm with
    | context [LOGGER_log ?l ?f ?a ?s] =>
        destruct (LOGGER_log_run l f a s) as (st3 & Hl & Hr3 & _)
    end.
    rewrite Hl in Hm. unfold bindM at 1 in Hm.
    match type of Hm with
    | context [LOGGER_log ?l ?f ?a ?s] =>
        destruct (LOGGER_log_run l f a s) as (st4 & Hl4 & Hr4 & _)
    end.
    rewrite Hl4 in Hm.
    destruct dry_run.
    + inversion Hm; subst.
      exists [], (set_iter (name :: names)). repeat split;
        [congruence | discriminate].
    + destruct (provision_titles urljoin py_str server session account
                  group (set_iter (name :: names)) st4)
        as (done & rest & out' & st5 & Hp & Ho & Ht & Hok).
      rewrite Hp in Hm. inversion Hm; subst.
      exists done, rest. split; [exact Ho|]. split.
      * rewrite Ht, Hr4, Hr3, Ht2. reflexivity.
      * intros _. exact Hok.
Qed.

End Run.

(** C2, as amended.  In a run without the dry-run flag that returns
    without an error, every name some transaction of the scan yields gets
    exactly one rule-creation POST, however many transactions yield it;
    and in any run no name gets more than one such POST and no POST goes
    out for a name the scan has not found.  (The iteration of the set is
    any permutation of its elements.) *)
Theorem one_rule_per_beneficiary {rt : runtime}
    (urljoin : string -> string -> string) (py_str : value -> string)
    (server : list request -> request -> reply)
    (set_iter : list string -> list string)
    (fuel : nat) (verbose : Z) (url access_token group : string)
    (dry_run : bool) (account : string)
    (transactions : list value) (res : result unit) (sent : list request)
    (out : result unit) (st' : state) :
  (forall s, Permutation (set_iter s) s) ->
  scan_drain urljoin py_str server fuel (mkSession url access_token) account
    ScanStart
    [get_request urljoin (mkSession url access_token) "/api/v1/about/user"]
  = (transactions, res, sent) ->
  main urljoin py_str server set_iter fuel verbose url access_token group
    dry_run account init = (out, st') ->
  let titles := creation_titles (reqs st') in
  let yielded name :=
    exists t, In t transactions /\ beneficiary_of t = Some name in
  NoDup titles /\
  (forall name, In name titles -> yielded name) /\
  (dry_run = false -> out = Ok tt ->
   forall name, yielded name -> count_occ string_dec titles name = 1%nat).
Proof.
  intros Hperm Hd Hm titles yielded.
  destruct (main_titles urljoin py_str server set_iter Hperm fuel verbose
              url access_token group account dry_run transactions res sent
              out st' Hd Hm) as (done & rest & Hsplit & Ht & Hall).
  fold titles in Ht.
  assert (Hnd : NoDup (set_iter (collect transactions []))).
  { apply (Permutation_NoDup (Permutation_sym (Hperm _))).
    apply collect_nodup. constructor. }
  assert (Hin : forall name,
             In name (set_iter (collect transactions [])) <-> yielded name).
  { intros name. split.
    - intros H. apply (Permutation_in _ (Hperm _)) in H.
      apply collect_in in H. destruct H as [[]|H]. exact H.
    - intros H. apply (Permutation_in _ (Permutation_sym (Hperm _))).
      apply collect_in. now right. }
  rewrite Hsplit in Hnd. split; [|split].
  - rewrite Ht. now apply NoDup_app_remove_r in Hnd.
  - intros name H. apply Hin. rewrite Hsplit, <- Ht.
    apply in_or_app. now left.
  - intros Hdry Hok name Hy. specialize (Hall Hdry Hok). subst rest.
    rewrite app_nil_r in *. rewrite Ht.
    apply NoDup_count_occ'; [exact Hnd|].
    rewrite <- Hsplit. now apply Hin.
Qed.

Lemma one_rule_per_beneficiary_witness :
  beneficiary_of acme1 = Some "Acme Corp" /\
  beneficiary_of acme2 = Some "Acme Corp" /\
  count_occ string_dec
    (creation_titles (reqs (snd (sample_main three_pages false))))
    "Acme Corp" = 1%nat.
Proof.
  split; [reflexivity|]. split; [reflexivity|].
  assert (Hrun : sample_main three_pages false
                 = (fst (sample_main three_pages false),
                    snd (sample_main three_pages false)))
    by apply surjective_pairing.
  assert (Hok : fst (sample_main three_pages false) = Ok tt)
    by (vm_compute; reflexivity).
  assert (Hdrain :
            scan_drain (rt := sample_runtime) sample_join sample_str three_pages 20
              (mkSession "https://ledger.test" "secret") "12" ScanStart
              [get_request sample_join
                 (mkSession "https://ledger.test" "secret")
                 "/api/v1/about/user"]
            = ([acme1; unmarked; acme2; total_wine], Ok tt,
               snd (scan_drain (rt := sample_runtime) sample_join sample_str three_pages 20
                      sample_session "12" ScanStart [about_user])))
    by (vm_compute; reflexivity).
  apply (proj2 (proj2
    (one_rule_per_beneficiary (rt := sample_runtime) sample_join sample_str three_pages (@rev string)
       20 0 "https://ledger.test" "secret" "Fixes" false "12" _ _ _ _ _
       (fun s => Permutation_sym (Permutation_rev s)) Hdrain Hrun))
    eq_refl Hok "Acme Corp").
  exists acme1. split; [now left | reflexivity].
Defined.

(** The claim C2 as it is written fails in a run that creates rules and
    stops on an error.  Each of two names is yielded by two transactions;
    the trigger of the first rule is answered with status 500, the run
    ends there, and the name that comes second in the iteration of the
    set, whichever it is, gets no rule-creation POST at all. *)
Lemma failed_trigger_leaves_a_name_without_rule :
  fst (fst (scan_drain (rt := sample_runtime) sample_join sample_str
              twice_each 20 sample_session "12" ScanStart [about_user]))
  = [acme1; total_wine; acme2; total_wine2] /\
  (beneficiary_of acme1 = Some "Acme Corp" /\
   beneficiary_of acme2 = Some "Acme Corp") /\
  (beneficiary_of total_wine = Some "Total Wine" /\
   beneficiary_of total_wine2 = Some "Total Wine") /\
  (let run :=
     main (rt := sample_runtime) sample_join sample_str twice_each
       (fun s => s) 20 0 "https://ledger.test" "secret" "Fixes" false "12"
       init in
   fst run = Raise (HTTPError 500) /\
   count_occ string_dec (creation_titles (reqs (snd run))) "Total Wine"
   = 0%nat) /\
  (let run :=
     main (rt := sample_runtime) sample_join sample_str twice_each
       (@rev string) 20 0 "https://ledger.test" "secret" "Fixes" false "12"
       init in
   fst run = Raise (HTTPError 500) /\
   count_occ string_dec (creation_titles (reqs (snd run))) "Acme Corp"
   = 0%nat).
Proof. vm_compute. repeat split. Qed.

(** ** The beneficiary of a note *)

Lemma scan_body_match (t id : value) (notes group1 : string)
    (missing_rules : list string) (st : state) :
  subscript t "transaction_journal_id" = Ok id ->
  subscript t "notes" = Ok (VStr notes) ->
  re_search notes = Some group1 ->
  fst (scan_body t missing_rules st)
  = Ok (set_add (strip group1) missing_rules).
Proof.
  intros Hid Hn Hre.
  destruct (scan_body_cases t missing_rules st)
    as [(_ & st' & -> & _)|(Hw & _)].
  - unfold add_beneficiary, beneficiary_of. now rewrite Hn, Hre.
  - exfalso. apply Hw. now exists id, notes.
Qed.

Lemma skip_append (a s : string) : skip (String.length a) (a ++ s) = s.
Proof. induction a as [|c a IH]; [reflexivity | exact IH]. Qed.

(** A way to check that the marker is not met before the end of
    [pre ++ marker]: it starts at none of the positions of [pre]. *)
Lemma leftmost_by_positions (pre : string) :
  (forall k, (k < String.length pre)%nat ->
             match_literal marker (skip k (pre ++ marker)) = None) ->
  leftmost marker pre.
Proof.
  intros H a b Hab. destruct b as [|c b]; [reflexivity|]. exfalso.
  assert (Hlen : (String.length a < String.length pre)%nat).
  { apply (f_equal String.length) in Hab. rewrite !length_append in Hab.
    cbn [String.length] in Hab. lia. }
  specialize (H _ Hlen). rewrite Hab, skip_append in H.
  rewrite match_literal_append in H. discriminate.
Qed.

Lemma append_last_inj (t u : string) (c d : ascii) :
  (t ++ str1 c)%string = (u ++ str1 d)%string -> c = d.
Proof.
  revert u; induction t as [|x t IH]; intros u H.
  - destruct u as [|y u]; [now inversion H|].
    cbn in H. inversion H. destruct u; discriminate.
  - destruct u as [|y u].
    + cbn in H. inversion H. destruct t; discriminate.
    + cbn [append] in H. inversion H. now apply (IH u).
Qed.

(** C3.  A note that contains the marker splits, in one way only, into
    what stands before the leftmost marker, the marker, the text up to
    the end of that line and the rest; the capture of the regex is that
    text.  The beneficiary the scan adds to the set is the capture
    without its leading and trailing whitespace (tab, line feed, vertical
    tab, form feed, carriage return, the separators 28 to 31, space, next
    line, no-break space; strings hold code points below 256): whenever
    the capture is whitespace, a text with clean ends, whitespace, the
    beneficiary is that text.  The note of the specification gives
    [Acme Corp]. *)
Theorem beneficiary_is_trimmed_capture (note : string) :
  occurs marker note ->
  (exists pre group1 rest,
     note = (pre ++ marker ++ group1 ++ rest)%string /\
     leftmost marker pre /\ no_newline group1 /\ at_line_end rest) /\
  (forall pre group1 rest,
     note = (pre ++ marker ++ group1 ++ rest)%string ->
     leftmost marker pre -> no_newline group1 -> at_line_end rest ->
     re_search note = Some group1 /\
     trimmed group1 (strip group1) /\
     (forall l name r,
        group1 = (l ++ name ++ r)%string ->
        all_space l -> all_space r -> clean_ends name ->
        strip group1 = name /\
        forall t id missing_rules st,
          subscript t "transaction_journal_id" = Ok id ->
          subscript t "notes" = Ok (VStr note) ->
          fst (scan_body t missing_rules st)
          = Ok (set_add name missing_rules))) /\
  option_map strip (re_search acme_note) = Some "Acme Corp".
Proof.
  intros Hocc. split; [|split].
  - destruct (re_search note) as [group1|] eqn:Hre.
    + destruct (re_search_sound note group1 Hre)
        as (pre & rest & Hs & Hl & Hn & He).
      now exists pre, group1, rest.
    + now apply re_search_occurs in Hocc.
  - intros pre group1 rest -> Hl Hn He.
    pose proof (re_search_complete pre group1 rest Hl Hn He) as Hre.
    split; [exact Hre|]. split; [apply strip_trimmed|].
    intros l name r Hg Hsl Hsr Hc.
    pose proof (strip_unique group1 l name r Hg Hsl Hsr Hc) as Hstrip.
    split; [exact Hstrip|].
    intros t id missing_rules st Hid Hnotes. rewrite <- Hstrip.
    exact (scan_body_match t id _ group1 missing_rules st Hid Hnotes Hre).
  - reflexivity.
Qed.

Lemma beneficiary_is_trimmed_capture_witness :
  occurs marker padded_note /\
  re_search padded_note
  = Some (str1 TAB ++ " Acme Corp  " ++ str1 CR)%string /\
  fst (scan_body (transaction "9" padded_note) [] init) = Ok ["Acme Corp"].
Proof.
  assert (Hocc : occurs marker padded_note).
  { exists ("ref 1" ++ str1 LF)%string,
      (str1 TAB ++ " Acme Corp  " ++ str1 CR ++ str1 LF ++ "extra line")%string.
    reflexivity. }
  split; [exact Hocc|].
  assert (Hleft : leftmost marker ("ref 1" ++ str1 LF)%string).
  { apply leftmost_by_positions. intros k Hk.
    do 6 (destruct k as [|k]; [reflexivity|]). cbn in Hk. lia. }
  assert (Hnl : no_newline (str1 TAB ++ " Acme Corp  " ++ str1 CR)%string).
  { intros H. cbn in H.
    repeat (destruct H as [H|H]; [discriminate|]). exact H. }
  assert (Hend : at_line_end (String LF "extra line"))
    by (right; now eexists).
  destruct (proj1 (proj2 (beneficiary_is_trimmed_capture padded_note Hocc))
              ("ref 1" ++ str1 LF)%string
              (str1 TAB ++ " Acme Corp  " ++ str1 CR)%string
              (String LF "extra line") eq_refl Hleft Hnl Hend)
    as (Hre & _ & Hname).
  split; [exact Hre|].
  refine (proj2 (Hname (String TAB " ") "Acme Corp"
                   (String " " (String " " (str1 CR))) eq_refl _ _ _)
            (transaction "9" padded_note) (VStr "9") [] init
            eq_refl eq_refl).
  - repeat constructor; unfold whitespace; cbn; tauto.
  - repeat constructor; unfold whitespace; cbn; tauto.
  - split; intros c t' H.
    + inversion H; subst. unfold whitespace. cbn. lia.
    + rewrite (append_last_inj t' "Acme Cor" c "p" (eq_sym H)).
      unfold whitespace. cbn. lia.
Defined.

(** ** Sample runs *)

Lemma non_matching_notes_are_skipped_witness :
  fst (scan_loop (rt := sample_runtime) sample_join sample_str three_pages 20 sample_session "12"
         ScanStart [] (mkState [about_user] ERROR []))
  = Ok ["Acme Corp"; "Total Wine"] /\
  In (mkRecord ERROR "Failed to match note of transaction %s: %s"
        [VStr "4"; VStr "lunch"])
     (logs (snd (scan_loop (rt := sample_runtime) sample_join sample_str three_pages 20
                   sample_session "12" ScanStart []
                   (mkState [about_user] ERROR [])))).
Proof.
  destruct (non_matching_notes_are_skipped (rt := sample_runtime) sample_join sample_str three_pages
              20 sample_session "12" ScanStart []
              (mkState [about_user] ERROR [])
              [acme1; unmarked; acme2; total_wine] (Ok tt)
              (snd (scan_drain (rt := sample_runtime) sample_join sample_str three_pages 20
                      sample_session "12" ScanStart [about_user])))
    as (_ & st' & Hs & _ & Hin & _).
  - vm_compute. reflexivity.
  - repeat constructor; eexists _, _; split; reflexivity.
  - cbn. unfold ERROR. lia.
  - rewrite Hs. cbn [fst snd]. split; [reflexivity|].
    apply (Hin unmarked (VStr "4") "lunch");
      [right; now left | reflexivity..].
Defined.

Lemma create_fixing_rule_requests_witness :
  fst (create_fixing_rule sample_join sample_str
         (sample_ledger [] [] [] 204) sample_session "12" "Acme Corp"
         "Fixes" init)
  = Ok (VDict [("id", VStr "7");
               ("attributes", VDict [("title", VStr "Acme Corp")])]) /\
  map rq_url
    (reqs (snd (create_fixing_rule sample_join sample_str
                  (sample_ledger [] [] [] 204) sample_session "12"
                  "Acme Corp" "Fixes" init)))
  = ["https://ledger.test/api/v1/rules";
     "https://ledger.test/api/v1/rules/7/trigger"].
Proof.
  destruct (create_fixing_rule_requests sample_join sample_str
              (sample_ledger [] [] [] 204) sample_session "12" "Acme Corp"
              "Fixes" init) as (_ & _ & H).
  destruct (H (json_response
                 (VDict [("data", created_rule
                                    (Some (rule_json "12" "Acme Corp"
                                             "Fixes")))]))
              (created_rule (Some (rule_json "12" "Acme Corp" "Fixes")))
              (VStr "7") eq_refl eq_refl eq_refl) as (Hreqs & _ & Hres).
  split.
  - exact (Hres (mkResponse 204 EmptyString JSONDecodeError) eq_refl).
  - rewrite Hreqs. reflexivity.
Defined.

(** The claim C9 as it is written fails on a trigger call answered with a
    status outside 2xx that is neither 4xx nor 5xx: the provisioner does
    not raise and returns the rule. *)
Lemma trigger_status_304_is_accepted :
  sample_ledger [] [] [] 304
    [creation_request sample_join sample_session "12" "Fixes" "Acme Corp"]
    (trigger_request sample_join sample_str sample_session (VStr "7"))
  = Reply (mkResponse 304 EmptyString JSONDecodeError) /\
  ((304 <? 200) || (300 <=? 304))%Z = true /\
  create_fixing_rule sample_join sample_str (sample_ledger [] [] [] 304)
    sample_session "12" "Acme Corp" "Fixes" init
  = (Ok (VDict [("id", VStr "7");
                ("attributes", VDict [("title", VStr "Acme Corp")])]),
     mkState
       [creation_request sample_join sample_session "12" "Fixes" "Acme Corp";
        trigger_request sample_join sample_str sample_session (VStr "7")]
       WARNING []).
Proof. vm_compute. repeat split. Qed.

(** ** The paginated decoder *)

Lemma match_next_link (body : value) (url : string) :
  match_next body = Some url <-> next_link body url.
Proof.
  unfold match_next, next_link. split.
  - destruct body as [| | | | | |kvs]; try discriminate.
    destruct (lookup "links" kvs) as [[| | | | | |links]|] eqn:Hl;
      try discriminate.
    destruct (lookup "next" links) as [[| | | |next| |]|] eqn:Hn;
      try discriminate.
    intros H; inversion H; subst. now exists kvs, links.
  - intros (kvs & links & -> & Hl & Hn). now rewrite Hl, Hn.
Qed.

Lemma match_next_none (body : value) :
  match_next body = None <-> forall url, ~ next_link body url.
Proof.
  split.
  - intros H url Hu. apply match_next_link in Hu. congruence.
  - intros H. destruct (match_next body) as [url|] eqn:E; [|reflexivity].
    apply match_next_link in E. now apply H in E.
Qed.

Section Pagination.

Context {rt : runtime}.

Variable urljoin : string -> string -> string.
Variable py_str : value -> string.
Variable server : list request -> request -> reply.
Variable T : shape.
Variable session : FireflySession.

Local Abbreviation pag_items' := (pag_items urljoin py_str server).
Local Abbreviation pag_next' := (pag_next urljoin py_str server).
Local Abbreviation pag_drain' := (pag_drain urljoin py_str server).
Local Abbreviation paged' := (paged urljoin server).
Local Abbreviation timeline' := (timeline urljoin).
Local Abbreviation get' := (get_request urljoin session).

(** One pull with fuel [f1], then the rest of the drain with [f2]. *)
Local Abbreviation pull_drain f1 f2 g sent :=
  (match pag_next' f1 T session g sent with
   | (Yield x, g', sent') =>
       let '(l, r, s) := pag_drain' f2 T session g' sent' in
       ((x, sent') :: l, r, s)
   | (Stop, _, sent') => ([], Ok tt, sent')
   | (Throw e, _, sent') => ([], Raise e, sent')
   | (Starved, _, sent') => ([], NoFuel, sent')
   end).

Lemma pag_items_cons fuel depth data x items sent :
  pag_items' fuel T session depth data (x :: items) sent
  = (Yield x, PagItems depth data items, sent).
Proof. now destruct fuel. Qed.

Lemma pag_items_end fuel depth data sent :
  match_next data = None ->
  pag_items' fuel T session depth data [] sent = (Stop, PagDone, sent).
Proof. intros H. destruct fuel; cbn [pag_items]; now rewrite H. Qed.

Lemma is_page_open r items next :
  is_page T r items next ->
  exists body,
    pag_open py_str T r = Ok (body, items) /\ match_next body = next.
Proof.
  intros (body & Hj & Hd & He & Hc & Hn). exists body. split.
  - unfold pag_open, process_api_response.
    rewrite (r_json_parsed _ _ Hj).
    apply match_error_none in He. apply match_data_envelope in Hd.
    rewrite He, Hd.
    rewrite (validate_python_conforms (TList T) (VList items)) by exact Hc.
    reflexivity.
  - destruct next as [url|].
    + now apply match_next_link.
    + now apply match_next_none.
Qed.

Local Abbreviation follows' := (follows urljoin server T session).

Lemma paged_follows sent r items rest :
  paged' T session sent r items rest ->
  exists data,
    pag_open py_str T r = Ok (data, items) /\ follows' data sent rest.
Proof.
  destruct rest as [|[url items'] rest']; cbn [paged follows].
  - intros H. destruct (is_page_open _ _ _ H) as (data & Ho & Hn).
    now exists data.
  - intros (H & Hl & r' & Hs & Hp).
    destruct (is_page_open _ _ _ H) as (data & Ho & Hn).
    exists data. split; [exact Ho|]. split; [exact Hn|].
    split; [exact Hl|]. now exists r'.
Qed.

Ltac enough_fuel :=
  unfold weight, list_sum in *;
  cbn [List.length map fold_right snd app] in *; lia.

(** Within the depth the interpreter allows, every page comes out. *)
Lemma pull_drain_items rest :
  forall items depth data sent f1 f2,
    follows' data sent rest ->
    (depth + List.length rest <= depth_limit)%nat ->
    (weight items rest <= f1)%nat -> (weight items rest <= f2)%nat ->
    pull_drain f1 f2 (PagItems depth data items) sent
    = (timeline' session sent items rest, Ok tt,
       sent ++ page_requests urljoin session rest).
Proof.
  induction rest as [|[url items'] rest' IH].
  - induction items as [|x items IHi];
      intros depth data sent f1 f2 Hf Hdp H1 H2; cbn [pag_next].
    + cbn [follows] in Hf. rewrite (pag_items_end _ _ _ _ Hf).
      cbn. now rewrite app_nil_r.
    + rewrite pag_items_cons.
      destruct f2 as [|f2]; [enough_fuel|]. cbn [pag_drain].
      rewrite (IHi depth data sent f2 f2 Hf) by enough_fuel.
      reflexivity.
  - induction items as [|x items IHi];
      intros depth data sent f1 f2 Hf Hdp H1 H2; cbn [pag_next].
    + destruct Hf as (Hn & Hl & r' & Hs & Hp).
      destruct f1 as [|f1]; [enough_fuel|].
      cbn [pag_items]. rewrite Hn.
      replace (depth_limit <=? depth)%nat with false
        by (symmetry; apply Nat.leb_gt; cbn [List.length] in Hdp; lia).
      rewrite Hl.
      unfold session_get, send. fold (get' url). rewrite Hs.
      destruct (paged_follows _ _ _ _ Hp) as (data' & Ho & Hf').
      rewrite Ho.
      pose proof (IH items' (S depth) data' (sent ++ [get' url]) f1 f2 Hf')
        as E.
      cbn [pag_next] in E. rewrite E.
      * cbn [timeline map app page_requests fst].
        now rewrite <- app_assoc.
      * cbn [List.length] in Hdp. lia.
      * enough_fuel.
      * enough_fuel.
    + rewrite pag_items_cons.
      destruct f2 as [|f2]; [enough_fuel|]. cbn [pag_drain].
      rewrite (IHi depth data sent f2 f2 Hf) by enough_fuel.
      reflexivity.
Qed.

(** Beyond that depth the generator of the next page does not fit: the
    pages that fit come out, then a [RecursionError]. *)
Lemma pull_drain_overflow pre :
  forall items depth data sent url items' post f1 f2,
    follows' data sent (pre ++ (url, items') :: post) ->
    List.length pre = (depth_limit - depth)%nat ->
    (weight items pre <= f1)%nat -> (weight items pre <= f2)%nat ->
    pull_drain f1 f2 (PagItems depth data items) sent
    = (timeline' session sent items pre, Raise RecursionError,
       sent ++ page_requests urljoin session pre
       ++ if overflow_sends then [get' url] else []).
Proof.
  induction pre as [|[url0 items0] pre IH].
  - induction items as [|x items IHi];
      intros depth data sent url items' post f1 f2 Hf Hdp H1 H2;
      cbn [pag_next].
    + cbn [app follows] in Hf. destruct Hf as (Hn & Hl & _).
      assert (Hov : (depth_limit <=? depth)%nat = true)
        by (apply Nat.leb_le; cbn [List.length] in Hdp; lia).
      destruct f1 as [|f1]; cbn [pag_items]; rewrite Hn, Hov, Hl;
        cbn [timeline map app page_requests];
        destruct overflow_sends; unfold session_get, send; cbn [snd];
        rewrite ?app_nil_r; reflexivity.
    + rewrite pag_items_cons.
      destruct f2 as [|f2]; [enough_fuel|]. cbn [pag_drain].
      rewrite (IHi depth data sent url items' post f2 f2 Hf)
        by (assumption || enough_fuel).
      reflexivity.
  - induction items as [|x items IHi];
      intros depth data sent url items' post f1 f2 Hf Hdp H1 H2;
      cbn [pag_next].
    + cbn [app follows] in Hf. destruct Hf as (Hn & Hl & r' & Hs & Hp).
      destruct f1 as [|f1]; [enough_fuel|].
      cbn [pag_items]. rewrite Hn.
      replace (depth_limit <=? depth)%nat with false
        by (symmetry; apply Nat.leb_gt; cbn [List.length] in Hdp; lia).
      rewrite Hl.
      unfold session_get, send. fold (get' url0). rewrite Hs.
      destruct (paged_follows _ _ _ _ Hp) as (data' & Ho & Hf').
      rewrite Ho.
      pose proof (IH items0 (S depth) data' (sent ++ [get' url0]) url items'
                    post f1 f2 Hf') as E.
      cbn [pag_next] in E. rewrite E.
      * cbn [timeline map app page_requests fst].
        now rewrite <- !app_assoc.
      * cbn [List.length] in Hdp. lia.
      * enough_fuel.
      * enough_fuel.
    + rewrite pag_items_cons.
      destruct f2 as [|f2]; [enough_fuel|]. cbn [pag_drain].
      rewrite (IHi depth data sent url items' post f2 f2 Hf)
        by (assumption || enough_fuel).
      reflexivity.
Qed.

End Pagination.

Lemma timeline_items urljoin session sent items rest :
  map fst (timeline urljoin session sent items rest)
  = items ++ concat (map snd rest).
Proof.
  revert sent items; induction rest as [|[url items'] rest IH];
    intros sent items; cbn [timeline concat map snd].
  - rewrite !app_nil_r, map_map. cbn. apply map_id.
  - rewrite map_app, IH, map_map. cbn. now rewrite map_id.
Qed.

(** C1 does not hold of the code on a long answer.  The decoder nests
    one generator per page (the recursive [yield from]), so a paginated
    answer with more pages than the interpreter lets generators nest does
    not come out whole, although the docstring promises all pages: the
    items of the pages that fit are yielded, in order and each before the
    GET of the page after it, and the pull that would open the next page
    raises [RecursionError]. *)
Theorem deep_pagination_overflows {rt : runtime}
    (urljoin : string -> string -> string) (py_str : value -> string)
    (server : list request -> request -> reply)
    (T : shape) (session : FireflySession) (sent : list request)
    (r : response) (items : list value)
    (pre : list (string * list value)) (url : string)
    (items' : list value) (post : list (string * list value)) :
  paged urljoin server T session sent r items (pre ++ (url, items') :: post) ->
  List.length pre = (depth_limit - 1)%nat ->
  forall fuel,
    (weight items pre < fuel)%nat ->
    pag_drain urljoin py_str server fuel T session
      (process_paginated_api_response r) sent
    = (timeline urljoin session sent items pre, Raise RecursionError,
       sent ++ page_requests urljoin session pre
       ++ if overflow_sends then [get_request urljoin session url] else []).
Proof.
  intros Hp Hlen fuel Hf. destruct fuel as [|fuel]; [lia|].
  destruct (paged_follows urljoin py_str server T session sent r items _ Hp)
    as (data & Ho & Hfo).
  unfold process_paginated_api_response. cbn [pag_drain pag_next].
  rewrite Ho.
  pose proof (pull_drain_overflow urljoin py_str server T session pre items
                1 data sent url items' post fuel fuel Hfo Hlen) as E.
  cbn [pag_next] in E. apply E; lia.
Qed.

Lemma sample_pages_paged (rt : runtime) :
  link_error "https://ledger.test" "/search?page=2" = None ->
  link_error "https://ledger.test" "/search?page=3" = None ->
  paged (rt := rt) sample_join numbered_pages TDict sample_session []
    first_page [item 1; item 2]
    [("/search?page=2", [item 3]); ("/search?page=3", [item 4])].
Proof.
  intros H2 H3.
  assert (Hne : forall elements next message exception,
             ~ error_envelope (page_body elements next) message exception).
  { intros elements next m e (kvs & Hk & Hm & _).
    inversion Hk; subst. destruct next; discriminate. }
  assert (Hlink : forall elements url,
             next_link (page_body elements (Some url)) url).
  { intros elements url. eexists _, _. repeat split; reflexivity. }
  split; [|split; [exact H2|]; eexists; split; [reflexivity|];
           split; [|split; [exact H3|]; eexists; split; [reflexivity|]]].
  - eexists. split; [reflexivity|]. split; [eexists; split; reflexivity|].
    split; [apply Hne|]. split; [repeat constructor | apply Hlink].
  - eexists. split; [reflexivity|]. split; [eexists; split; reflexivity|].
    split; [apply Hne|]. split; [repeat constructor | apply Hlink].
  - eexists. split; [reflexivity|]. split; [eexists; split; reflexivity|].
    split; [apply Hne|]. split; [repeat constructor|].
    intros url (kvs & links & Hk & Hl & Hn).
    inversion Hk; subst. inversion Hl; subst. discriminate.
Qed.

Lemma deep_pagination_overflows_witness :
  pag_drain (rt := tight_runtime) sample_join sample_str numbered_pages 8
    TDict sample_session (process_paginated_api_response first_page) []
  = ([(item 1, []); (item 2, []); (item 3, [get_page "2"])],
     Raise RecursionError,
     [get_page "2"; get_page "3"]).
Proof.
  refine (deep_pagination_overflows (rt := tight_runtime) sample_join
            sample_str numbered_pages TDict sample_session [] first_page
            [item 1; item 2] [("/search?page=2", [item 3])]
            "/search?page=3" [item 4] [] _ _ 8%nat _).
  - exact (sample_pages_paged tight_runtime eq_refl eq_refl).
  - reflexivity.
  - cbn. lia.
Defined.

(** Within the depth the interpreter allows, the decoder is lazy and
    complete.  On a paginated answer of no more pages than generators may
    nest (every page but the last carries a textual [links.next] that
    [urljoin] accepts and under which the ledger serves the following
    page, the last carries none) the decoder, pulled to its end with fuel
    above the number of items and pages, yields the items of all pages in
    page order and in the order within each page, and ends.  Each item
    comes out with the requests sent so far: the GET of a page is not sent
    while an item of the page before is still to come, and a pull that
    finds an item left in the current page sends nothing. *)
Theorem paginated_decoder_is_lazy {rt : runtime}
    (urljoin : string -> string -> string) (py_str : value -> string)
    (server : list request -> request -> reply)
    (T : shape) (session : FireflySession) (sent : list request)
    (r : response) (items : list value) (rest : list (string * list value)) :
  paged urljoin server T session sent r items rest ->
  (List.length rest < depth_limit)%nat ->
  (forall fuel,
     (weight items rest < fuel)%nat ->
     pag_drain urljoin py_str server fuel T session
       (process_paginated_api_response r) sent
     = (timeline urljoin session sent items rest, Ok tt,
        sent ++ page_requests urljoin session rest)) /\
  map fst (timeline urljoin session sent items rest)
  = items ++ concat (map snd rest) /\
  (forall fuel depth data x xs sent',
     pag_next urljoin py_str server fuel T session
       (PagItems depth data (x :: xs)) sent'
     = (Yield x, PagItems depth data xs, sent')).
Proof.
  intros Hp Hdepth. split; [|split].
  - intros fuel Hf. destruct fuel as [|fuel]; [lia|].
    destruct (paged_follows urljoin py_str server T session sent r items
                rest Hp) as (data & Ho & Hfo).
    unfold process_paginated_api_response. cbn [pag_drain pag_next].
    rewrite Ho.
    pose proof (pull_drain_items urljoin py_str server T session rest items
                  1 data sent fuel fuel Hfo) as E.
    cbn [pag_next] in E. apply E; lia.
  - apply timeline_items.
  - intros fuel depth data x xs sent'. cbn [pag_next]. apply pag_items_cons.
Qed.

Lemma paginated_decoder_is_lazy_witness :
  pag_drain (rt := sample_runtime) sample_join sample_str numbered_pages 8
    TDict sample_session (process_paginated_api_response first_page) []
  = ([(item 1, []);
      (item 2, []);
      (item 3, [get_page "2"]);
      (item 4, [get_page "2"; get_page "3"])],
     Ok tt,
     [get_page "2"; get_page "3"]).
Proof.
  refine (proj1
    (paginated_decoder_is_lazy (rt := sample_runtime) sample_join sample_str
       numbered_pages TDict sample_session [] first_page [item 1; item 2]
       [("/search?page=2", [item 3]); ("/search?page=3", [item 4])] _ _)
    8%nat _).
  - exact (sample_pages_paged sample_runtime eq_refl eq_refl).
  - cbn. lia.
  - cbn. lia.
Defined.

(** ** More fuel changes nothing *)

Section Fuel.

Context {rt : runtime}.

Variable urljoin : string -> string -> string.
Variable py_str : value -> string.
Variable server : list request -> request -> reply.
Variable T : shape.
Variable session : FireflySession.

Local Abbreviation pag_items' := (pag_items urljoin py_str server).
Local Abbreviation pag_next' := (pag_next urljoin py_str server).

Lemma pag_items_mono f :
  forall f' depth data items sent,
    (f <= f')%nat ->
    fst (fst (pag_items' f T session depth data items sent)) <> Starved ->
    pag_items' f' T session depth data items sent
    = pag_items' f T session depth data items sent.
Proof.
  induction f as [|f IH]; intros f' depth data items sent Hle Hns.
  - destruct items as [|x items]; [|destruct f'; reflexivity].
    destruct f'; cbn [pag_items] in *;
      destruct (match_next data) as [next|]; try reflexivity;
      destruct (depth_limit <=? depth)%nat; try reflexivity;
      destruct (link_error (base_url session) next); try reflexivity.
    now contradiction Hns.
  - destruct f' as [|f']; [lia|].
    destruct items as [|x items]; [|reflexivity].
    cbn [pag_items] in *.
    destruct (match_next data) as [next|]; [|reflexivity].
    destruct (depth_limit <=? depth)%nat; [reflexivity|].
    destruct (link_error (base_url session) next); [reflexivity|].
    destruct (session_get urljoin server session next [] sent)
      as [[r|e|] sent']; try reflexivity.
    destruct (pag_open py_str T r) as [[data' items']|e|]; try reflexivity.
    apply IH; [lia | exact Hns].
Qed.

Lemma pag_next_mono f f' g sent x g' sent' :
  (f <= f')%nat ->
  pag_next' f T session g sent = (Yield x, g', sent') ->
  pag_next' f' T session g sent = (Yield x, g', sent').
Proof.
  intros Hle H. destruct g as [depth r|depth data items|];
    cbn [pag_next] in *.
  - destruct (pag_open py_str T r) as [[data items]|e|]; try exact H.
    rewrite pag_items_mono with (f := f); [exact H | exact Hle|].
    now rewrite H.
  - rewrite pag_items_mono with (f := f); [exact H | exact Hle|].
    now rewrite H.
  - exact H.
Qed.

End Fuel.

(** ** Elements the scan cannot read *)

Lemma page_transactions_raise (p : value) :
  match page_transactions p with
  | Ok _ => True
  | Raise e => lookup_or_type_error e
  | NoFuel => False
  end.
Proof.
  unfold page_transactions.
  destruct (subscript p "attributes") as [a|e|] eqn:Ha; cbn [bind].
  - destruct (subscript a "transactions") as [t|e|] eqn:Ht; cbn [bind].
    + destruct t; exact I.
    + destruct a; try discriminate; try (inversion Ht; subst; exact I).
      cbn in Ht. destruct (lookup "transactions" kvs); inversion Ht.
      exact I.
    + destruct a; try discriminate.
      cbn in Ht. destruct (lookup "transactions" kvs); discriminate.
  - destruct p; try discriminate; try (inversion Ha; subst; exact I).
    cbn in Ha. destruct (lookup "attributes" kvs); inversion Ha. exact I.
  - destruct p; try discriminate.
    cbn in Ha. destruct (lookup "attributes" kvs); discriminate.
Qed.

Lemma malformed_element_raises (p : value) :
  malformed_element p ->
  page_transactions p = Raise (KeyError "attributes") \/
  page_transactions p = Raise (KeyError "transactions").
Proof.
  intros [(kvs & -> & H)|(kvs & a & -> & Ha & Ht)];
    unfold page_transactions; cbn [subscript].
  - left. now rewrite H.
  - right. rewrite Ha. cbn [bind subscript]. now rewrite Ht.
Qed.

Lemma malformed_transaction_not_well_formed (t : value) :
  malformed_transaction t -> ~ well_formed t.
Proof.
  intros (kvs & -> & H) (id & notes & Hid & Hn). cbn [subscript] in *.
  destruct H as [H|[H|(v & H & Hv)]].
  - rewrite H in Hid. discriminate.
  - rewrite H in Hn. discriminate.
  - rewrite H in Hn. inversion Hn. now apply (Hv notes).
Qed.

Lemma unreadable_stops (p : value) : unreadable p -> stops p.
Proof.
  intros [H|(txs & t & Hp & Hin & Ht)].
  - left. destruct (malformed_element_raises p H) as [E|E]; eauto.
  - right. exists txs. split; [exact Hp|]. apply Exists_exists.
    exists t. split; [exact Hin|].
    now apply malformed_transaction_not_well_formed.
Qed.

Section Abort.

Context {rt : runtime}.

Variable urljoin : string -> string -> string.
Variable py_str : value -> string.
Variable server : list request -> request -> reply.
Variable session : FireflySession.
Variable account : string.

Local Abbreviation scan_loop' := (scan_loop urljoin py_str server).
Local Abbreviation scan_next' := (scan_next urljoin py_str server).
Local Abbreviation scan_items' := (scan_items urljoin py_str server).
Local Abbreviation pag_next' := (pag_next urljoin py_str server).
Local Abbreviation pag_drain' := (pag_drain urljoin py_str server).

(** One turn of the loop with fuel [f1] for the pull, then the loop
    with [f2]. *)
Local Abbreviation pull_loop f1 f2 g missing st :=
  (match scan_next' f1 session account g (reqs st) with
   | (Yield transaction, g', sent) =>
       match scan_body transaction missing
               (mkState sent (log_level st) (logs st)) with
       | (Ok missing', st') => scan_loop' f2 session account g' missing' st'
       | (Raise e, st') => (Raise e, st')
       | (NoFuel, st') => (NoFuel, st')
       end
   | (Stop, _, sent) => (Ok missing, mkState sent (log_level st) (logs st))
   | (Throw e, _, sent) =>
       (Raise e, mkState sent (log_level st) (logs st))
   | (Starved, _, sent) => (NoFuel, mkState sent (log_level st) (logs st))
   end).

Lemma transaction_count_cons p l :
  transaction_count (p :: l)
  = (match page_transactions p with
     | Ok transactions => List.length transactions
     | _ => 0
     end + transaction_count l)%nat.
Proof. reflexivity. Qed.

Lemma scan_items_cons fuel pages t transactions sent :
  scan_items' fuel session pages (t :: transactions) sent
  = (Yield t, ScanPages pages transactions, sent).
Proof. now destruct fuel. Qed.

(** Once an element at which the scan stops is among those the
    paginated decoder yields, or a transaction that is not well formed
    is among those at hand, the loop raises a lookup or a type error. *)
Lemma pull_loop_stops f0 :
  forall g sent elements res0 sent1,
    pag_drain' f0 TDict session g sent = (elements, res0, sent1) ->
    forall transactions f1 f2 missing st,
      reqs st = sent ->
      Exists (fun t => ~ well_formed t) transactions \/
      Exists stops (map fst elements) ->
      (f0 <= f1)%nat ->
      (f0 + List.length transactions
       + transaction_count (map fst elements) <= f2)%nat ->
      exists e st',
        pull_loop f1 f2 (ScanPages g transactions) missing st
        = (Raise e, st') /\ lookup_or_type_error e.
Proof.
  induction f0 as [|f0 IH]; intros g sent elements res0 sent1 Hd;
    induction transactions as [|t txs IHt];
    intros f1 f2 missing st Hr Hbad H1 H2.
  - cbn [pag_drain] in Hd. inversion Hd; subst.
    destruct Hbad as [Hbad|Hbad]; inversion Hbad.
  - cbn [scan_next]. rewrite scan_items_cons.
    destruct (scan_body_cases t missing
                (mkState (reqs st) (log_level st) (logs st)))
      as [(Hw & st1 & Hb & Hr1 & _)|(_ & e & st1 & Hb & He & _)];
      rewrite Hb; [|now exists e, st1].
    destruct f2 as [|f2]; [cbn [List.length] in H2; lia|].
    apply (IHt f2 f2 _ st1).
    + cbn [reqs] in Hr1. congruence.
    + destruct Hbad as [Hbad|Hbad]; [|now right].
      inversion Hbad; subst; [contradiction | now left].
    + cbn [List.length] in H2. lia.
    + cbn [List.length] in H2. lia.
  - cbn [pag_drain] in Hd.
    destruct (pag_next' f0 TDict session g sent)
      as [[[x| |e|] g'] sent'] eqn:Hn;
      try (inversion Hd; subst;
           destruct Hbad as [Hbad|Hbad]; inversion Hbad; fail).
    destruct (pag_drain' f0 TDict session g' sent')
      as [[l r] s] eqn:Hrest.
    inversion Hd; subst elements res0 sent1. clear Hd.
    destruct f1 as [|f1]; [lia|].
    cbn [scan_next scan_items]. rewrite Hr.
    rewrite (pag_next_mono urljoin py_str server TDict session f0 f1
               g sent x g' sent') by (lia || exact Hn).
    pose proof (page_transactions_raise x) as Hpx.
    cbn [map fst] in *. rewrite transaction_count_cons in H2.
    destruct (page_transactions x) as [txs'|e|] eqn:Hp; [| |contradiction].
    + apply (IH g' sent' l r s Hrest txs' f1 f2 missing
               (mkState sent' (log_level st) (logs st)));
        [reflexivity| |lia|cbn [List.length] in H2; lia].
      destruct Hbad as [Hbad|Hbad]; [inversion Hbad|].
      inversion Hbad as [? ? Hx|? ? Hl]; subst; [|now right].
      destruct Hx as [(e & He)|(txs'' & Ht & Hex)]; [congruence|].
      left. congruence.
    + eexists _, _. split; [reflexivity | exact Hpx].
  - cbn [scan_next]. rewrite scan_items_cons.
    destruct (scan_body_cases t missing
                (mkState (reqs st) (log_level st) (logs st)))
      as [(Hw & st1 & Hb & Hr1 & _)|(_ & e & st1 & Hb & He & _)];
      rewrite Hb; [|now exists e, st1].
    destruct f2 as [|f2]; [cbn [List.length] in H2; lia|].
    apply (IHt f2 f2 _ st1).
    + cbn [reqs] in Hr1. congruence.
    + destruct Hbad as [Hbad|Hbad]; [|now right].
      inversion Hbad; subst; [contradiction | now left].
    + cbn [List.length] in H2. lia.
    + cbn [List.length] in H2. lia.
Qed.

End Abort.

(** C10.  The elements of a page are validated as objects and nothing
    more, so an element of any content passes the decoder.  An element
    without [attributes], or whose attributes have no [transactions],
    makes the scanner raise a [KeyError]; a transaction without journal
    id, without notes or with notes that are not a string makes the body
    of the loop raise a [KeyError] or a [TypeError].  Once such an element
    is among those the paginated decoder yields for the search, the run,
    given fuel to reach it, ends with a lookup or a type error: no
    [ValidationError], and no skip. *)
Theorem malformed_elements_abort_the_run {rt : runtime}
    (urljoin : string -> string -> string) (py_str : value -> string)
    (server : list request -> request -> reply)
    (set_iter : list string -> list string)
    (verbose : Z) (url access_token group : string) (dry_run : bool)
    (account : string) (r : response) (f0 : nat)
    (elements : list (value * list request)) (res0 : result unit)
    (sent1 : list request) (p : value) :
  let session := mkSession url access_token in
  let about := get_request urljoin session "/api/v1/about/user" in
  let search := search_request urljoin session account in
  fst (authenticate urljoin py_str server session
         (snd (setup_logging verbose init))) = Ok tt ->
  server [about] search = Reply r ->
  pag_drain urljoin py_str server f0 TDict session
    (process_paginated_api_response r) [about; search]
  = (elements, res0, sent1) ->
  In p (map fst elements) ->
  unreadable p ->
  (forall kvs, validate_python TDict (VDict kvs) = Ok (VDict kvs)) /\
  (forall q,
     malformed_element q ->
     page_transactions q = Raise (KeyError "attributes") \/
     page_transactions q = Raise (KeyError "transactions")) /\
  (forall t missing_rules st,
     malformed_transaction t ->
     exists e st',
       scan_body t missing_rules st = (Raise e, st') /\
       lookup_or_type_error e) /\
  forall fuel,
    (f0 + transaction_count (map fst elements) < fuel)%nat ->
    exists e st',
      main urljoin py_str server set_iter fuel verbose url access_token
        group dry_run account init = (Raise e, st') /\
      lookup_or_type_error e.
Proof.
  intros session about search Hauth Hsrv Hd Hin Hp.
  split; [reflexivity|]. split; [exact malformed_element_raises|].
  split.
  - intros t missing_rules st Ht.
    destruct (scan_body_cases t missing_rules st)
      as [(Hw & _)|(_ & e & st' & Hb & He & _)].
    + now apply malformed_transaction_not_well_formed in Ht.
    + now exists e, st'.
  - intros fuel Hf. destruct fuel as [|fuel]; [lia|].
    unfold main, bindM at 1. cbn [setup_logging]. cbv beta iota.
    fold session. unfold bindM at 1.
    cbn [setup_logging snd] in Hauth.
    match goal with
    | |- context [authenticate _ _ _ _ ?s] =>
        destruct (authenticate_run urljoin py_str server session s)
          as (ra & st1 & Ha & Hr1 & _)
    end.
    rewrite Ha in Hauth |- *. cbn [fst] in Hauth. subst ra.
    cbn [reqs] in Hr1. change (reqs init) with (@nil request) in Hr1.
    cbn [app] in Hr1. fold about in Hr1.
    unfold bindM at 1, get_transactions_with_notes.
    cbn [scan_loop scan_next]. unfold session_get, send.
    rewrite Hr1.
    change (mkRequest GET
              (urljoin (base_url session) "/api/v1/search/transactions")
              ("Bearer " ++ api_token session)
              [("query", search_query account)] None) with search.
    rewrite Hsrv. unfold process_paginated_api_response in *.
    destruct (pull_loop_stops urljoin py_str server session account f0
                (PagStart 1 r) [about; search] elements res0 sent1 Hd
                [] fuel fuel []
                (mkState [about; search] (log_level st1) (logs st1)))
      as (e & st' & Hs & He).
    + reflexivity.
    + right. apply Exists_exists. exists p. split; [exact Hin|].
      now apply unreadable_stops.
    + lia.
    + cbn [List.length]. lia.
    + cbn [scan_next reqs log_level logs] in Hs. cbn [app]. rewrite Hs.
      now exists e, st'.
Qed.

Lemma malformed_elements_abort_the_run_witness :
  sample_main broken_element false
  = (Raise (KeyError "attributes"),
     mkState
       [about_user;
        search_request sample_join sample_session "12"]
       ERROR []) /\
  exists e st',
    sample_main broken_transaction true = (Raise e, st') /\
    lookup_or_type_error e.
Proof.
  split; [vm_compute; reflexivity|].
  refine (proj2 (proj2 (proj2
    (malformed_elements_abort_the_run (rt := sample_runtime) sample_join sample_str
       broken_transaction (@rev string) 0 "https://ledger.test" "secret"
       "Fixes" true "12"
       (json_response
          (page_body
             [group_of [acme1; VDict [("transaction_journal_id", VStr "5")]]]
             (Some "/search?page=2")))
       5%nat
       (fst (fst (pag_drain (rt := sample_runtime) sample_join sample_str broken_transaction 5
                    TDict sample_session
                    (PagStart 1
                       (json_response
                          (page_body
                             [group_of
                                [acme1;
                                 VDict [("transaction_journal_id",
                                         VStr "5")]]]
                             (Some "/search?page=2"))))
                    [about_user;
                     search_request sample_join sample_session "12"])))
       (Ok tt)
       [about_user; search_request sample_join sample_session "12";
        get_page "2"; get_page "3"]
       (group_of [acme1; VDict [("transaction_journal_id", VStr "5")]])
       eq_refl eq_refl _ _ _))) 20%nat _).
  - vm_compute. reflexivity.
  - vm_compute. now left.
  - right. eexists _, _. split; [reflexivity|]. split; [right; now left|].
    eexists. split; [reflexivity|]. right. now left.
  - vm_compute. lia.
Defined.

(** ** What a run leaves behind *)

Lemma appended_refl P sent : appended P sent sent.
Proof. exists []. now rewrite app_nil_r. Qed.

Lemma appended_trans P a b c :
  appended P a b -> appended P b c -> appended P a c.
Proof.
  intros (m1 & -> & H1) (m2 & -> & H2). exists (m1 ++ m2).
  split; [now rewrite app_assoc | now apply Forall_app].
Qed.

Lemma continues_refl P st : continues P st st.
Proof.
  split; [apply appended_refl|]. split; [reflexivity|].
  exists []. now rewrite app_nil_r.
Qed.

Lemma continues_trans P a b c :
  continues P a b -> continues P b c -> continues P a c.
Proof.
  intros (R1 & L1 & r1 & E1 & F1) (R2 & L2 & r2 & E2 & F2).
  split; [exact (appended_trans _ _ _ _ R1 R2)|].
  split; [congruence|]. exists (r1 ++ r2). split.
  - now rewrite E2, E1, app_assoc.
  - apply Forall_app. split; [exact F1|]. now rewrite L1 in F2.
Qed.

Lemma steady_ret P {A : Type} (a : A) : steady P (ret a).
Proof. intros st. apply continues_refl. Qed.

Lemma steady_lift P {A : Type} (r : result A) : steady P (lift r).
Proof. intros st. apply continues_refl. Qed.

Lemma steady_bind P {A B : Type} (m : M A) (k : A -> M B) :
  steady P m -> (forall a, steady P (k a)) -> steady P (bindM m k).
Proof.
  intros Hm Hk st. unfold bindM. specialize (Hm st).
  destruct (m st) as [[a|e|] st']; cbn [snd] in *; try exact Hm.
  exact (continues_trans _ _ _ _ Hm (Hk a st')).
Qed.

Lemma steady_log P (level : Z) (fmt : string) (a : list value) :
  steady P (LOGGER_log level fmt a).
Proof.
  intros st. unfold LOGGER_log. cbn [snd].
  destruct (log_level st <=? level)%Z eqn:E; [|apply continues_refl].
  split; [apply appended_refl|]. split; [reflexivity|].
  exists [mkRecord level fmt a]. split; [reflexivity|].
  constructor; [|constructor]. now apply Z.leb_le.
Qed.

Lemma steady_on_reqs P {A : Type}
    (f : list request -> result A * list request) :
  (forall sent, appended P sent (snd (f sent))) -> steady P (on_reqs f).
Proof.
  intros Hf st. unfold on_reqs. specialize (Hf (reqs st)).
  destruct (f (reqs st)) as [a sent']. cbn [snd] in *.
  split; [exact Hf|]. split; [reflexivity|].
  exists []. now rewrite app_nil_r.
Qed.

Section Session.

Context {rt : runtime}.

Variable urljoin : string -> string -> string.
Variable py_str : value -> string.
Variable server : list request -> request -> reply.
Variable session : FireflySession.

Local Abbreviation P := (from_session urljoin session).

Lemma send_appended m url params body sent :
  appended P sent (snd (send urljoin server session m url params body sent)).
Proof.
  unfold send. cbn [snd]. eexists. split; [reflexivity|].
  constructor; [|constructor]. split; [reflexivity | now exists url].
Qed.

Lemma pag_items_appended fuel T depth data items sent :
  appended P sent
    (snd (pag_items urljoin py_str server fuel T session depth data items
            sent)).
Proof.
  revert depth data items sent; induction fuel as [|fuel IH];
    intros depth data items sent; destruct items as [|x rest];
    cbn [pag_items snd]; try apply appended_refl;
    (destruct (match_next data) as [next|]; [|apply appended_refl]);
    (destruct (depth_limit <=? depth)%nat;
     [ cbn [snd];
       destruct (link_error (base_url session) next);
       [apply appended_refl|];
       destruct overflow_sends;
       [apply send_appended | apply appended_refl]
     |]);
    (destruct (link_error (base_url session) next);
     [apply appended_refl|]);
    [apply appended_refl|].
  pose proof (send_appended GET next [] None sent) as Hg.
  unfold session_get.
  destruct (send urljoin server session GET next [] None sent)
    as [[r|e|] sent']; cbn [snd] in *; try exact Hg.
  destruct (pag_open py_str T r) as [[data' items']|e|];
    cbn [snd]; try exact Hg.
  exact (appended_trans _ _ _ _ Hg (IH (S depth) data' items' sent')).
Qed.

Lemma pag_next_appended fuel T g sent :
  appended P sent
    (snd (pag_next urljoin py_str server fuel T session g sent)).
Proof.
  destruct g as [depth r|depth data items|]; cbn [pag_next snd];
    try apply appended_refl.
  - destruct (pag_open py_str T r) as [[data items]|e|];
      cbn [snd]; try apply appended_refl.
    apply pag_items_appended.
  - apply pag_items_appended.
Qed.

Lemma scan_items_appended fuel pages transactions sent :
  appended P sent
    (snd (scan_items urljoin py_str server fuel session pages transactions
            sent)).
Proof.
  revert pages transactions sent; induction fuel as [|fuel IH];
    intros pages transactions sent; destruct transactions as [|t rest];
    cbn [scan_items snd]; try apply appended_refl.
  pose proof (pag_next_appended fuel TDict pages sent) as Hp.
  destruct (pag_next urljoin py_str server fuel TDict session pages sent)
    as [[[page| |e|] pages'] sent']; cbn [snd] in *; try exact Hp.
  destruct (page_transactions page) as [transactions'|e|];
    cbn [snd]; try exact Hp.
  exact (appended_trans _ _ _ _ Hp (IH pages' transactions' sent')).
Qed.

Lemma scan_next_appended fuel account g sent :
  appended P sent
    (snd (scan_next urljoin py_str server fuel session account g sent)).
Proof.
  destruct g as [|pages transactions|]; cbn [scan_next snd];
    try apply appended_refl.
  - pose proof (send_appended GET "/api/v1/search/transactions"
                  [("query", search_query account)] None sent) as Hg.
    unfold session_get.
    destruct (send urljoin server session GET "/api/v1/search/transactions"
                [("query", search_query account)] None sent)
      as [[r|e|] sent']; cbn [snd] in *; try exact Hg.
    exact (appended_trans _ _ _ _ Hg (scan_items_appended fuel _ [] sent')).
  - apply scan_items_appended.
Qed.

Ltac steady_steps :=
  repeat first
    [ apply steady_bind; [|intros ?]
    | apply steady_lift
    | apply steady_log
    | apply steady_ret
    | apply steady_on_reqs; intros ?; apply send_appended
    | match goal with
      | |- steady _ (match ?x with _ => _ end) => destruct x
      end ].

Lemma steady_scan_body transaction missing_rules :
  steady P (scan_body transaction missing_rules).
Proof. unfold scan_body. steady_steps. Qed.

Lemma steady_scan_loop fuel account g missing_rules :
  steady P
    (scan_loop urljoin py_str server fuel session account g missing_rules).
Proof.
  revert g missing_rules; induction fuel as [|fuel IH];
    intros g missing_rules st; cbn [scan_loop snd];
    [apply continues_refl|].
  pose proof (scan_next_appended fuel account g (reqs st)) as Hn.
  assert (Hst : forall sent,
             appended P (reqs st) sent ->
             continues P st (mkState sent (log_level st) (logs st))).
  { intros sent Hs. split; [exact Hs|]. split; [reflexivity|].
    exists []. now rewrite app_nil_r. }
  destruct (scan_next urljoin py_str server fuel session account g (reqs st))
    as [[[t| |e|] g'] sent]; cbn [snd] in *; try (now apply Hst).
  pose proof (steady_scan_body t missing_rules
                (mkState sent (log_level st) (logs st))) as Hb.
  destruct (scan_body t missing_rules
              (mkState sent (log_level st) (logs st)))
    as [[missing_rules'|e|] st']; cbn [snd] in *.
  - exact (continues_trans _ _ _ _ (Hst _ Hn)
             (continues_trans _ _ _ _ Hb (IH g' missing_rules' st'))).
  - exact (continues_trans _ _ _ _ (Hst _ Hn) Hb).
  - exact (continues_trans _ _ _ _ (Hst _ Hn) Hb).
Qed.

Lemma steady_create_fixing_rule account beneficiary group :
  steady P
    (create_fixing_rule urljoin py_str server session account beneficiary
       group).
Proof. unfold create_fixing_rule, session_post. steady_steps. Qed.

Lemma steady_provision account group order :
  steady P (provision urljoin py_str server session account group order).
Proof.
  induction order as [|b order IH]; cbn [provision]; [apply steady_ret|].
  apply steady_bind; [apply steady_create_fixing_rule | intros rule].
  steady_steps. exact IH.
Qed.

Lemma steady_authenticate :
  steady P (authenticate urljoin py_str server session).
Proof. unfold authenticate, session_get. steady_steps. Qed.

End Session.

Lemma main_continues {rt : runtime}
    (urljoin : string -> string -> string) (py_str : value -> string)
    (server : list request -> request -> reply)
    (set_iter : list string -> list string)
    (fuel : nat) (verbose : Z) (url access_token group : string)
    (dry_run : bool) (account : string) (st : state) :
  continues (from_session urljoin (mkSession url access_token))
    (snd (setup_logging verbose st))
    (snd (main urljoin py_str server set_iter fuel verbose url access_token
            group dry_run account st)).
Proof.
  unfold main, bindM at 1. cbn [setup_logging snd]. cbv beta iota.
  match goal with
  | |- continues ?P ?s (snd (?m ?s)) => generalize s; change (steady P m)
  end.
  apply steady_bind; [apply steady_authenticate | intros _].
  apply steady_bind; [apply steady_scan_loop | intros missing_rules].
  destruct missing_rules as [|name rest]; [apply steady_log|].
  apply steady_bind; [apply steady_log | intros _].
  apply steady_bind; [apply steady_log | intros _].
  destruct dry_run; [apply steady_ret | apply steady_provision].
Qed.

(** Every request of a run goes through the session: whatever was on
    record stays on record, in order, and each request the run adds
    carries the bearer token and a url resolved against the base url,
    the requests for the following pages included. *)
Theorem every_request_goes_through_the_session {rt : runtime}
    (urljoin : string -> string -> string) (py_str : value -> string)
    (server : list request -> request -> reply)
    (set_iter : list string -> list string)
    (fuel : nat) (verbose : Z) (url access_token group : string)
    (dry_run : bool) (account : string) (st : state) :
  exists more,
    reqs (snd (main urljoin py_str server set_iter fuel verbose url
                 access_token group dry_run account st))
    = reqs st ++ more /\
    Forall (fun q =>
              rq_authorization q = ("Bearer " ++ access_token)%string /\
              exists path, rq_url q = urljoin url path) more.
Proof.
  destruct (main_continues urljoin py_str server set_iter fuel verbose url
              access_token group dry_run account st)
    as ((more & Hm & Hf) & _).
  now exists more.
Qed.

(** The level of the root logger is the one [setup_logging] picks for the
    verbosity, to the end of the run, and no record below that level is
    emitted: the records on file before the run stay, and every record
    the run adds reaches the level. *)
Theorem no_record_below_the_level {rt : runtime}
    (urljoin : string -> string -> string) (py_str : value -> string)
    (server : list request -> request -> reply)
    (set_iter : list string -> list string)
    (fuel : nat) (verbose : Z) (url access_token group : string)
    (dry_run : bool) (account : string) (st : state) :
  let level :=
    match verbose with
    | 0%Z => ERROR
    | 1%Z => WARNING
    | 2%Z => INFO
    | 3%Z => DEBUG
    | _ => 0%Z
    end in
  let st' :=
    snd (main urljoin py_str server set_iter fuel verbose url access_token
           group dry_run account st) in
  log_level st' = level /\
  exists records,
    logs st' = logs st ++ records /\
    Forall (fun r => (level <= levelno r)%Z) records.
Proof.
  intros level st'.
  destruct (main_continues urljoin py_str server set_iter fuel verbose url
              access_token group dry_run account st)
    as (_ & Hl & records & Hr & Hf).
  split; [exact Hl|]. now exists records.
Qed.

(** ** Failures that stop a run early *)

Lemma process_api_response_returns py_str r T :
  process_api_response py_str r T <> NoFuel.
Proof.
  unfold process_api_response.
  destruct (json_result r) as [data| |e]; try discriminate.
  destruct (match_error data) as [[]|]; [discriminate|].
  destruct (match_data data) as [d|]; [|discriminate].
  destruct (validate_python_decides T d) as [[_ ->]|[_ ->]]; discriminate.
Qed.



(** Unless the answer to the rule-creation POST decodes to an object with
    an [id], the provisioner raises and the trigger POST is never sent:
    the creation request is the only one it has added. *)
Theorem no_trigger_without_created_rule
    (urljoin : string -> string -> string) (py_str : value -> string)
    (server : list request -> request -> reply)
    (session : FireflySession) (account beneficiary group : string)
    (st : state) :
  let create := creation_request urljoin session account group beneficiary in
  (forall r rule rule_id,
     server (reqs st) create = Reply r ->
     process_api_response py_str r TDict = Ok rule ->
     subscript rule "id" = Ok rule_id -> False) ->
  exists e st',
    create_fixing_rule urljoin py_str server session account beneficiary
      group st = (Raise e, st') /\
    reqs st' = reqs st ++ [create].
Proof.
  intros create Hno. unfold create_fixing_rule, bindM at 1.
  destruct (LOGGER_log_run DEBUG "Creating rule %s in group %s"
              [VStr beneficiary; VStr group] st) as (st1 & -> & Hr1 & _).
  unfold bindM at 1, on_reqs at 1, session_post at 1, send at 1.
  rewrite Hr1.
  fold (creation_request urljoin session account group beneficiary).
  fold create.
  destruct (server (reqs st) create) as [r|] eqn:Hr;
    [|eexists _, _; split; reflexivity].
  unfold bindM at 1, lift at 1.
  pose proof (process_api_response_returns py_str r TDict) as Hnf.
  destruct (process_api_response py_str r TDict) as [rule|e|] eqn:Hu;
    [|eexists _, _; split; reflexivity | contradiction].
  unfold bindM at 1, lift at 1.
  destruct (subscript rule "id") as [rule_id|e|] eqn:Hi;
    [|eexists _, _; split; reflexivity
     |destruct rule; try discriminate; cbn in Hi;
      destruct (lookup "id" kvs); discriminate].
  exfalso. exact (Hno r rule rule_id eq_refl Hu Hi).
Qed.

Lemma no_trigger_without_created_rule_witness :
  exists e st',
    create_fixing_rule sample_join sample_str locked_out sample_session
      "12" "Acme Corp" "Fixes" init = (Raise e, st') /\
    reqs st'
    = [creation_request sample_join sample_session "12" "Fixes" "Acme Corp"].
Proof.
  apply (no_trigger_without_created_rule sample_join sample_str locked_out
           sample_session "12" "Acme Corp" "Fixes" init).
  intros r rule rule_id Hr Hu. inversion Hr; subst. discriminate.
Defined.

(** ** The decoder, the other way round *)

(** Whatever the decoder returns is the [data] field of a body that is
    not an error envelope, and it has the expected shape. *)
Theorem decoded_value_is_conforming_data
    (py_str : value -> string) (r : response) (T : shape) (v : value) :
  process_api_response py_str r T = Ok v ->
  exists body,
    r_json r = Some body /\
    success_envelope body v /\
    (forall message exception, ~ error_envelope body message exception) /\
    conforms T v.
Proof.
  unfold process_api_response, r_json. intros H.
  destruct (json_result r) as [body| |e]; [|discriminate..].
  destruct (match_error body) as [[m e]|] eqn:He; [discriminate|].
  destruct (match_data body) as [d|] eqn:Hd; [|discriminate].
  destruct (validate_python_decides T d) as [[Hc E]|[_ E]];
    rewrite E in H; [|discriminate].
  inversion H; subst. exists body. split; [reflexivity|].
  split; [now apply match_data_envelope|].
  split; [now apply match_error_none | exact Hc].
Qed.

Lemma decoded_value_is_conforming_data_witness :
  exists body,
    r_json (json_response user_body) = Some body /\
    success_envelope body
      (VDict [("attributes", VDict [("email", VStr "me@ledger.test")])]) /\
    (forall message exception, ~ error_envelope body message exception) /\
    conforms TDict
      (VDict [("attributes", VDict [("email", VStr "me@ledger.test")])]).
Proof.
  apply (decoded_value_is_conforming_data sample_str
           (json_response user_body) TDict).
  reflexivity.
Defined.

(** A page is validated as a whole before any of its items comes out:
    when its [data] is not a list of items of the expected shape, the
    first pull raises a [ValidationError], nothing of the page is yielded
    and no request is sent. *)
Theorem invalid_page_yields_nothing {rt : runtime}
    (urljoin : string -> string -> string) (py_str : value -> string)
    (server : list request -> request -> reply)
    (T : shape) (session : FireflySession) (r : response)
    (body payload : value) (fuel : nat) (sent : list request) :
  r_json r = Some body ->
  success_envelope body payload ->
  (forall message exception, ~ error_envelope body message exception) ->
  ~ conforms (TList T) payload ->
  pag_drain urljoin py_str server (S fuel) T session
    (process_paginated_api_response r) sent
  = ([], Raise ValidationError, sent).
Proof.
  intros Hj Hd He Hc. unfold process_paginated_api_response.
  cbn [pag_drain pag_next]. unfold pag_open, process_api_response.
  rewrite (r_json_parsed _ _ Hj). apply match_error_none in He. apply match_data_envelope in Hd.
  rewrite He, Hd. rewrite (validate_python_rejects _ _ Hc). reflexivity.
Qed.

Lemma invalid_page_yields_nothing_witness :
  pag_drain (rt := sample_runtime) sample_join sample_str numbered_pages 8 TDict sample_session
    (process_paginated_api_response
       (json_response (page_body [item 1; VStr "x"; item 3] None))) []
  = ([], Raise ValidationError, []).
Proof.
  apply (invalid_page_yields_nothing (rt := sample_runtime) sample_join sample_str numbered_pages
           TDict sample_session _
           (page_body [item 1; VStr "x"; item 3] None)
           (VList [item 1; VStr "x"; item 3]) 7 []).
  - reflexivity.
  - eexists. split; reflexivity.
  - intros m e (kvs & Hk & Hm & _). inversion Hk; subst. discriminate.
  - cbn. intros H. inversion H as [|? ? _ H2]; subst.
    inversion H2 as [|? ? Hx _]; subst. exact Hx.
Defined.

(** ** The order of the POSTs *)

Section Posts.

Context {rt : runtime}.

Variable urljoin : string -> string -> string.
Variable py_str : value -> string.
Variable server : list request -> request -> reply.
Variable session : FireflySession.
Variables account group : string.

Local Abbreviation provisioned' :=
  (provisioned urljoin py_str session account group).
Local Abbreviation create' := (creation_request urljoin session account group).
Local Abbreviation trigger' := (trigger_request urljoin py_str session).

(** What one call of the provisioner adds to the requests. *)
Lemma create_fixing_rule_posts beneficiary st :
  exists res st',
    create_fixing_rule urljoin py_str server session account beneficiary
      group st = (res, st') /\
    (reqs st' = reqs st ++ [create' beneficiary] /\
     (forall rule, res <> Ok rule) \/
     exists rule_id,
       reqs st' = reqs st ++ [create' beneficiary; trigger' rule_id]).
Proof.
  unfold create_fixing_rule, bindM at 1.
  destruct (LOGGER_log_run DEBUG "Creating rule %s in group %s"
              [VStr beneficiary; VStr group] st) as (st1 & -> & Hr1 & _).
  unfold bindM at 1, on_reqs at 1, session_post at 1, send at 1.
  rewrite Hr1. fold (create' beneficiary).
  destruct (server (reqs st) (create' beneficiary)) as [r|];
    [|eexists _, _; split; [reflexivity|]; left;
      repeat split; discriminate].
  unfold bindM at 1, lift at 1.
  destruct (process_api_response py_str r TDict) as [rule|e|];
    [|eexists _, _; split; [reflexivity|]; left;
      repeat split; discriminate..].
  unfold bindM at 1, lift at 1.
  destruct (subscript rule "id") as [rule_id|e|];
    [|eexists _, _; split; [reflexivity|]; left;
      repeat split; discriminate..].
  unfold bindM at 1.
  match goal with
  | |- context [LOGGER_log ?l ?f ?a ?s] =>
      destruct (LOGGER_log_run l f a s) as (st2 & -> & Hr2 & _)
  end.
  cbn [reqs] in Hr2.
  unfold bindM at 1, on_reqs at 1, session_post at 1, send at 1.
  rewrite Hr2. fold (trigger' rule_id).
  destruct (server _ (trigger' rule_id)) as [r'|].
  - unfold bindM, lift, ret.
    destruct (raise_for_status r'); eexists _, _;
      (split; [reflexivity|]); right; exists rule_id; cbn [reqs];
      now rewrite <- app_assoc.
  - eexists _, _. split; [reflexivity|]. right. exists rule_id.
    cbn [reqs]. now rewrite <- app_assoc.
Qed.

Lemma provision_posts order :
  forall st,
  exists done rest posts out st',
    provision urljoin py_str server session account group order st
    = (out, st') /\
    order = done ++ rest /\
    reqs st' = reqs st ++ posts /\
    provisioned' done posts /\
    (out = Ok tt -> rest = []).
Proof.
  induction order as [|b order IH]; intros st.
  - exists [], [], [], (Ok tt), st. cbn. rewrite app_nil_r.
    repeat split. constructor.
  - cbn [provision]. unfold bindM at 1.
    destruct (create_fixing_rule_posts b st)
      as (res & st1 & -> & [(Hr & Hno)|(rule_id & Hr)]).
    + destruct res as [rule|e|]; [now contradiction (Hno rule)|..];
        exists [b], order, [create' b]; eexists _, _;
        (split; [reflexivity|]); repeat split;
        try exact Hr; try constructor; discriminate.
    + assert (Hstop : forall (out : result unit) st2,
                 reqs st2 = reqs st1 -> out <> Ok tt ->
                 exists done rest posts out' st',
                   (out, st2) = (out', st') /\
                   b :: order = done ++ rest /\
                   reqs st' = reqs st ++ posts /\
                   provisioned' done posts /\
                   (out' = Ok tt -> rest = [])).
      { intros out st2 H2 Hout.
        exists [b], order, [create' b; trigger' rule_id], out, st2.
        split; [reflexivity|]. split; [reflexivity|].
        split; [congruence|]. split; [repeat constructor|].
        intros H. contradiction. }
      destruct res as [rule|e|];
        [|apply Hstop; [reflexivity | discriminate]..].
      unfold bindM at 1, lift at 1.
      destruct (subscript rule "attributes") as [a|e|];
        [|apply Hstop; [reflexivity | discriminate]..].
      unfold bindM at 1, lift at 1.
      destruct (subscript a "title") as [title|e|];
        [|apply Hstop; [reflexivity | discriminate]..].
      unfold bindM at 1, lift at 1.
      destruct (subscript rule "id") as [rule_id'|e|];
        [|apply Hstop; [reflexivity | discriminate]..].
      unfold bindM at 1.
      match goal with
      | |- context [LOGGER_log ?l ?f ?a ?s] =>
          destruct (LOGGER_log_run l f a s) as (st2 & -> & Hr2 & _)
      end.
      cbv beta iota. clear Hstop.
      destruct (IH st2)
        as (done & rest & posts & out & st' & -> & -> & Hp & Hd & Hok).
      exists (b :: done), rest, (create' b :: trigger' rule_id :: posts),
        out, st'.
      split; [reflexivity|]. split; [reflexivity|]. split.
      * rewrite Hp, Hr2, Hr, <- app_assoc. reflexivity.
      * split; [now constructor | exact Hok].
Qed.

End Posts.

Lemma provisioned_posts urljoin py_str session account group names posts :
  provisioned urljoin py_str session account group names posts ->
  filter is_post posts = posts.
Proof.
  induction 1 as [|name|name rule_id names posts _ IH]; cbn [filter];
    try reflexivity.
  cbn. now rewrite IH.
Qed.

(** The POSTs of a run come in pairs, in the order the set is iterated:
    each rule is created and triggered before the next one is created,
    and the POSTs stop where the run stops.  Nothing is undone, and when
    a creation fails nothing later is attempted.  A dry run has none. *)
Theorem posts_come_in_pairs {rt : runtime}
    (urljoin : string -> string -> string) (py_str : value -> string)
    (server : list request -> request -> reply)
    (set_iter : list string -> list string)
    (fuel : nat) (verbose : Z) (url access_token group : string)
    (dry_run : bool) (account : string)
    (transactions : list value) (res : result unit) (sent : list request)
    (out : result unit) (st' : state) :
  scan_drain urljoin py_str server fuel (mkSession url access_token) account
    ScanStart
    [get_request urljoin (mkSession url access_token) "/api/v1/about/user"]
  = (transactions, res, sent) ->
  main urljoin py_str server set_iter fuel verbose url access_token group
    dry_run account init = (out, st') ->
  exists done rest,
    set_iter (collect transactions []) = done ++ rest /\
    provisioned urljoin py_str (mkSession url access_token) account group
      done (filter is_post (reqs st')) /\
    (dry_run = true -> done = []).
Proof.
  intros Hd Hm. unfold main in Hm. unfold bindM at 1 in Hm.
  cbn [setup_logging] in Hm. cbv beta iota in Hm.
  set (session := mkSession url access_token) in *.
  unfold bindM at 1 in Hm.
  match type of Hm with
  | context [authenticate _ _ _ _ ?s] =>
      destruct (authenticate_run urljoin py_str server session s)
        as (ra & st1 & Ha & Hr1 & _)
  end.
  rewrite Ha in Hm. cbn [reqs] in Hr1.
  change (reqs init) with (@nil request) in Hr1. cbn [app] in Hr1.
  assert (Hnone : forall st0 : state,
             filter is_post (reqs st0) = [] ->
             exists done rest,
               set_iter (collect transactions []) = done ++ rest /\
               provisioned urljoin py_str session account group done
                 (filter is_post (reqs st0)) /\
               (dry_run = true -> done = [])).
  { intros st0 H0. exists [], (set_iter (collect transactions [])).
    rewrite H0. repeat split. constructor. }
  destruct ra as [[]|e|];
    [|inversion Hm; subst; apply Hnone; now rewrite Hr1..].
  unfold bindM at 1 in Hm. unfold get_transactions_with_notes in Hm.
  pose proof (read_only_scan_loop urljoin py_str server session fuel
                account ScanStart [] st1) as Hro.
  rewrite <- Hr1 in Hd.
  destruct (scan_loop urljoin py_str server fuel session account ScanStart
              [] st1) as [rs st2] eqn:Hs.
  cbn [snd] in Hro. rewrite Hr1 in Hro. cbn in Hro.
  destruct rs as [missing_rules|e|];
    [|inversion Hm; subst; now apply Hnone..].
  destruct (scan_loop_ok_inv urljoin py_str server session account fuel
              _ _ _ _ _ _ _ _ Hd Hs) as [Hwf Hres].
  destruct (scan_loop_well_formed urljoin py_str server session account
              fuel ScanStart [] st1 _ _ _ Hd Hwf) as (st2' & Hs' & _).
  rewrite Hs in Hs'. subst res. cbn [loop_result] in Hs'.
  inversion Hs'; subst st2'.
  match goal with H : missing_rules = _ |- _ => rename H into Hmiss end.
  rewrite <- Hmiss in *. clear Hmiss.
  destruct missing_rules as [|name names].
  - match type of Hm with
    | context [LOGGER_log ?l ?f ?a ?s] =>
        destruct (LOGGER_log_run l f a s) as (st3 & Hl & Hr3 & _)
    end.
    rewrite Hl in Hm. inversion Hm; subst.
    apply Hnone. now rewrite Hr3.
  - unfold bindM at 1 in Hm.
    match type of Hm with
    | context [LOGGER_log ?l ?f ?a ?s] =>
        destruct (LOGGER_log_run l f a s) as (st3 & Hl & Hr3 & _)
    end.
    rewrite Hl in Hm. unfold bindM at 1 in Hm.
    match type of Hm with
    | context [LOGGER_log ?l ?f ?a ?s] =>
        destruct (LOGGER_log_run l f a s) as (st4 & Hl4 & Hr4 & _)
    end.
    rewrite Hl4 in Hm.
    destruct dry_run.
    + inversion Hm; subst. apply Hnone. congruence.
    + destruct (provision_posts urljoin py_str server session account
                  group (set_iter (name :: names)) st4)
        as (done & rest & posts & out' & st5 & Hp & Ho & Hrq & Hpr & _).
      rewrite Hp in Hm. inversion Hm; subst.
      exists done, rest. split; [exact Ho|]. split; [|discriminate].
      rewrite Hrq, filter_app, Hr4, Hr3, Hro. cbn [app].
      now rewrite (provisioned_posts _ _ _ _ _ _ _ Hpr).
Qed.

Lemma posts_come_in_pairs_witness :
  fst (sample_main failing_trigger false) = Raise (HTTPError 500) /\
  exists done rest,
    rev (collect [acme1; unmarked; acme2; total_wine] []) = done ++ rest /\
    provisioned sample_join sample_str
      (mkSession "https://ledger.test" "secret") "12" "Fixes" done
      (filter is_post (reqs (snd (sample_main failing_trigger false)))) /\
    (false = true -> done = []).
Proof.
  split; [vm_compute; reflexivity|].
  assert (Hrun : sample_main failing_trigger false
                 = (fst (sample_main failing_trigger false),
                    snd (sample_main failing_trigger false)))
    by apply surjective_pairing.
  assert (Hdrain :
            scan_drain (rt := sample_runtime) sample_join sample_str failing_trigger 20
              (mkSession "https://ledger.test" "secret") "12" ScanStart
              [get_request sample_join
                 (mkSession "https://ledger.test" "secret")
                 "/api/v1/about/user"]
            = ([acme1; unmarked; acme2; total_wine], Ok tt,
               snd (scan_drain (rt := sample_runtime) sample_join sample_str failing_trigger 20
                      sample_session "12" ScanStart [about_user])))
    by (vm_compute; reflexivity).
  exact (posts_come_in_pairs (rt := sample_runtime) sample_join sample_str failing_trigger
           (@rev string) 20 0 "https://ledger.test" "secret" "Fixes" false
           "12" _ _ _ _ _ Hdrain Hrun).
Defined.
